(** * Incident API route: access, search, pagination and status lifecycle

    A shallow embedding of [src/pages/api/incidents/index.ts], the route
    handler that lists, creates, updates and deletes incident documents.

    The handler is modelled as a pure function from the database, the
    session, the per-request environment (clock readings, the identifier
    the driver assigns on insert) and the request, to a response and the
    database after the call.  The two library calls whose behaviour is
    decided outside the repository, the driver's [ObjectId] constructor
    and the store's [$regex] operator, are variables of the section that
    holds the handler; a reference instance of each is given afterwards
    for concrete runs.

    Strings are byte strings (UTF-8); case folding is the ASCII one.
    Numbers are exact integers: rounding of IEEE doubles beyond 2^53 is
    not modelled, and the statements that depend on the size of a number
    carry the bound [max_safe]. *)

From Stdlib Require Import ZArith Lia List String Ascii Bool Sorting.Sorted Sorting.Permutation.
From stdpp Require Import base gmap strings list.
Import ListNotations.

Local Open Scope string_scope.
Local Open Scope Z_scope.

(** ** JavaScript values and coercions *)

(** The values a parsed JSON body can hold (arrays left out). *)
#[warnings="-register-all"]
Inductive JsVal :=
| JUndefined
| JNull
| JBool (b : bool)
| JNum (n : Z)
| JStr (s : string)
| JObj (props : list (string * JsVal)).

(** [ToBoolean]: what [!v] and [v || d] test. *)
Definition truthy (v : JsVal) : bool :=
  match v with
  | JUndefined | JNull => false
  | JBool b => b
  | JNum n => negb (n =? 0)
  | JStr s => negb (String.eqb s "")
  | JObj _ => true
  end.

Fixpoint assoc (k : string) (props : list (string * JsVal)) : JsVal :=
  match props with
  | [] => JUndefined
  | (k', v) :: rest => if String.eqb k k' then v else assoc k rest
  end.

(** Exceptions the handler can meet; each is caught by the [try] of the
    branch it arises in. *)
Inductive Exn :=
| TypeError          (* destructuring undefined or null *)
| BSONError          (* ObjectId constructor rejects its argument *)
| MongoServerError   (* the store rejects a command *)
| FormError.         (* the multipart parser reports an error *)

Definition Try (A : Type) : Type := Exn + A.
Definition ret {A} (a : A) : Try A := inr a.
Definition throw {A} (e : Exn) : Try A := inl e.
Definition bind {A B} (m : Try A) (k : A -> Try B) : Try B :=
  match m with
  | inl e => inl e
  | inr a => k a
  end.
Notation "x <- m ;; k" := (bind m (fun x => k))
  (at level 100, m at next level, right associativity).

(** [const { k } = v]: throws on [undefined] and [null]; a property that
    is not there reads as [undefined] (the primitives have no [id] or
    [status] property). *)
Definition get_prop (v : JsVal) (k : string) : Try JsVal :=
  match v with
  | JUndefined | JNull => throw TypeError
  | JObj props => ret (assoc k props)
  | _ => ret JUndefined
  end.

(** ** [parseInt] with no radix argument *)

(** The white space of ASCII: space, tab, line feed, vertical tab, form
    feed, carriage return. *)
Definition is_ws (c : ascii) : bool :=
  let n := nat_of_ascii c in
  (Nat.eqb n 32 || (Nat.leb 9 n && Nat.leb n 13))%bool.

Definition byte_is (n : nat) (c : ascii) : bool := Nat.eqb (nat_of_ascii c) n.

(** The white space beyond ASCII, as the bytes of its UTF-8 form: U+00A0
    in two bytes; U+1680, U+2000 to U+200A, U+2028, U+2029, U+202F,
    U+205F, U+3000 and U+FEFF in three. *)
Definition wide_ws (c1 c2 c3 : ascii) : bool :=
  let n3 := nat_of_ascii c3 in
  (byte_is 225 c1 && byte_is 154 c2 && byte_is 128 c3)
  || (byte_is 226 c1 && byte_is 128 c2
      && ((Nat.leb 128 n3 && Nat.leb n3 138) || Nat.eqb n3 168 || Nat.eqb n3 169
          || Nat.eqb n3 175))
  || (byte_is 226 c1 && byte_is 129 c2 && byte_is 159 c3)
  || (byte_is 227 c1 && byte_is 128 c2 && byte_is 128 c3)
  || (byte_is 239 c1 && byte_is 187 c2 && byte_is 191 c3).

(** The leading white space and line terminators [parseInt] drops. *)
Fixpoint skip_ws (s : list ascii) : list ascii :=
  match s with
  | c :: rest =>
      if is_ws c then skip_ws rest
      else if byte_is 194 c then
        match rest with
        | c2 :: rest2 => if byte_is 160 c2 then skip_ws rest2 else s
        | [] => s
        end
      else if byte_is 225 c || byte_is 226 c || byte_is 227 c || byte_is 239 c then
        match rest with
        | c2 :: c3 :: rest3 => if wide_ws c c2 c3 then skip_ws rest3 else s
        | _ => s
        end
      else s
  | [] => []
  end.

Definition digit_val (c : ascii) : option Z :=
  let n := Z.of_nat (nat_of_ascii c) in
  if (48 <=? n) && (n <=? 57) then Some (n - 48)
  else if (97 <=? n) && (n <=? 122) then Some (n - 87)
  else if (65 <=? n) && (n <=? 90) then Some (n - 55)
  else None.

(** Longest prefix of digits of the radix; [None] while no digit was read. *)
Fixpoint digits (radix : Z) (acc : option Z) (s : list ascii) : option Z :=
  match s with
  | [] => acc
  | c :: s' =>
      match digit_val c with
      | Some d =>
          if d <? radix
          then digits radix (Some (radix * default 0 acc + d)) s'
          else acc
      | None => acc
      end
  end.

(** [None] is NaN. *)
Definition parseInt (s : string) : option Z :=
  let s1 := skip_ws (list_ascii_of_string s) in
  let '(sign, s2) :=
    match s1 with
    | "-"%char :: t => (-1, t)
    | "+"%char :: t => (1, t)
    | _ => (1, s1)
    end in
  let '(radix, s3) :=
    match s2 with
    | "0"%char :: "x"%char :: t => (16, t)
    | "0"%char :: "X"%char :: t => (16, t)
    | _ => (10, s2)
    end in
  option_map (Z.mul sign) (digits radix None s3).

(** [parseInt(req.query.k as string) || d]: an absent parameter is
    [undefined], which [parseInt] reads as the text "undefined": NaN. *)
Definition query_int (query : gmap string string) (k : string) (d : Z) : Z :=
  match query !! k ≫= parseInt with
  | None => d
  | Some n => if n =? 0 then d else n
  end.

(** [Number.MAX_SAFE_INTEGER], 2^53 - 1: up to it the integers, their
    sums and products are exact as doubles, and so is the ceiling of a
    quotient. *)
Definition max_safe : Z := 9007199254740991.

(** [Math.ceil(a / b)] on integers, [b] not zero. *)
Definition ceil_div (a b : Z) : Z := - ((- a) / b).

(** ** Documents *)

Definition ObjectId := string.
Definition Time := Z.

Record Location := { address : string }.     (* coordinates: always null *)

(** The [reportedBy] snapshot. *)
Record Reporter := {
  reporter_id : ObjectId;
  reporter_name : string;
  reporter_email : string
}.

(** The [updatedBy] snapshot written by a status update. *)
Record Updater := {
  updater_email : string;
  updater_name : string
}.

Record Comment := {
  comment_id : ObjectId;
  content : string;
  comment_createdAt : Time;
  author_name : string;
  author_email : string
}.

Record Incident := {
  _id : ObjectId;
  title : string;
  location : Location;
  type : string;
  severity : string;
  description : string;
  photoUrl : option string;
  status : string;
  reportedBy : Reporter;
  comments : list Comment;
  createdAt : Time;
  updatedAt : Time;
  updatedBy : option Updater
}.

Record User := {
  user_id : ObjectId;
  user_name : string;
  user_email : string
}.

(** The two collections the handler touches, each in natural order. *)
Record DB := {
  incidents : list Incident;
  users : list User
}.

(** [session.user] *)
Record Session := {
  email : string;
  name : string;
  userType : string
}.

(** What the multipart parser hands back: the text fields, each as one
    text (formidable 1 and 2; version 3 hands each field as a list of
    texts, for which a field sent empty counts as filled in), and the
    path the uploaded [photo] was saved under, if there was one. *)
Record Form := {
  fields : gmap string string;
  photo : option string
}.

(** [body] is [req.body] as the framework hands it over: [JUndefined]
    when no body parser ran (the module exports
    [config.api.bodyParser = false]).  [form] is the outcome of parsing
    the request stream as a multipart form. *)
Record Request := {
  method : string;
  query : gmap string string;
  body : JsVal;
  form : Try Form
}.

(** What the surroundings decide during one call: the reading of the
    k-th [new Date()], and the identifier the driver gives an inserted
    document. *)
Record Env := {
  clock : nat -> Time;
  insertedId : ObjectId
}.

(** ** Responses *)

(** One incident as the listing returns it. *)
Record IncidentView := {
  view_id : ObjectId;
  view_title : string;
  view_address : string;
  view_type : string;
  view_severity : string;
  view_status : string;
  view_description : string;
  view_photoUrl : option string;
  view_reporter_name : string;
  view_reporter_email : string;
  view_createdAt : Time;
  view_comments : list Comment
}.

Inductive Payload :=
| Message (message : string)
| Failure (message : string) (error : Exn)
| MissingFields (message : string) (receivedData : list (option string))
| Listing (items : list IncidentView) (total page totalPages : Z)
| Created (message : string) (incident : Incident).

Record Response := {
  code : Z;
  payload : Payload
}.

(** The error kinds of the specification, by status code. *)
Inductive ErrorKind :=
| Unauthenticated | Forbidden | NotFound | ValidationError | StoreError | MethodNotAllowed.

Definition error_kind (r : Response) : option ErrorKind :=
  if code r =? 401 then Some Unauthenticated
  else if code r =? 403 then Some Forbidden
  else if code r =? 404 then Some NotFound
  else if code r =? 400 then Some ValidationError
  else if code r =? 500 then Some StoreError
  else if code r =? 405 then Some MethodNotAllowed
  else None.

Definition respond (c : Z) (p : Payload) : Response := {| code := c; payload := p |}.

(** ** Collection operations *)

Definition has_id (oid : ObjectId) (i : Incident) : bool := String.eqb (_id i) oid.

(** [findOne({ _id })] *)
Definition findOne (oid : ObjectId) (l : list Incident) : option Incident :=
  List.find (has_id oid) l.

(** [findOne({ email })] on the users. *)
Definition findUser (e : string) (l : list User) : option User :=
  List.find (fun u => String.eqb (user_email u) e) l.

(** [insertOne]: the identifier index is unique, a second document with
    the same identifier is refused. *)
Definition insertOne (doc : Incident) (l : list Incident) : Try (list Incident) :=
  match findOne (_id doc) l with
  | Some _ => throw MongoServerError
  | None => ret (l ++ [doc])%list
  end.

(** [updateOne({ _id }, { $set })]: the first match is rewritten; the
    flag is [matchedCount > 0]. *)
Fixpoint updateOne (oid : ObjectId) (set : Incident -> Incident) (l : list Incident)
  : list Incident * bool :=
  match l with
  | [] => ([], false)
  | i :: rest =>
      if has_id oid i then (set i :: rest, true)
      else let '(rest', m) := updateOne oid set rest in (i :: rest', m)
  end.

(** [deleteOne({ _id })] *)
Fixpoint deleteOne (oid : ObjectId) (l : list Incident) : list Incident :=
  match l with
  | [] => []
  | i :: rest => if has_id oid i then rest else i :: deleteOne oid rest
  end.

(** [sort({ createdAt: -1 })]: newest first.  The store promises no
    order among documents with equal [createdAt]; here they keep their
    natural order. *)
Fixpoint insert_desc (i : Incident) (l : list Incident) : list Incident :=
  match l with
  | [] => [i]
  | j :: rest =>
      if createdAt j <=? createdAt i then i :: l else j :: insert_desc i rest
  end.

Definition sort_desc (l : list Incident) : list Incident :=
  fold_right insert_desc [] l.

(** [skip(s).limit(n)]: the server refuses a negative skip; a limit of
    zero is no limit, a negative limit counts as its absolute value. *)
Definition window (s n : Z) (l : list Incident) : Try (list Incident) :=
  if s <? 0 then throw MongoServerError
  else
    let l' := drop (Z.to_nat s) l in
    ret (if n =? 0 then l' else take (Z.to_nat (Z.abs n)) l').

(** ** The search filter *)

Inductive Field := FTitle | FAddress | FType | FDescription.

Definition field_value (f : Field) (i : Incident) : string :=
  match f with
  | FTitle => title i
  | FAddress => address (location i)
  | FType => type i
  | FDescription => description i
  end.

(** A filter is [{}] or [{ $or: [ { f: { $regex: p, $options: 'i' } }, ... ] }]. *)
Inductive Query :=
| QAll
| QOr (clauses : list (Field * string)).

(** [let query = {}; if (search) query = { $or: [...] }] *)
Definition build_query (search : option string) : Query :=
  match search with
  | Some s =>
      if String.eqb s "" then QAll
      else QOr [(FTitle, s); (FAddress, s); (FType, s); (FDescription, s)]
  | None => QAll
  end.

Definition validStatuses : list string :=
  ["pending"; "in_progress"; "resolved"; "rejected"].

(** [validStatuses.includes(v)]: only a string equal to a member is. *)
Definition includes (l : list string) (v : JsVal) : bool :=
  match v with
  | JStr s => existsb (String.eqb s) l
  | _ => false
  end.

Definition js_string (v : JsVal) : string :=
  match v with
  | JStr s => s
  | _ => ""
  end.

(** [path.basename]: what follows the last slash. *)
Fixpoint basename_aux (acc : string) (s : string) : string :=
  match s with
  | EmptyString => acc
  | String c rest =>
      if Ascii.eqb c "/" then basename_aux rest rest else basename_aux acc rest
  end.

Definition basename (s : string) : string := basename_aux s s.

(** [x || d] on an optional text field. *)
Definition or_text (x : option string) (d : string) : string :=
  match x with
  | Some s => if String.eqb s "" then d else s
  | None => d
  end.

Definition present (x : option string) : bool :=
  match x with
  | Some s => negb (String.eqb s "")
  | None => false
  end.

(** The [rawIncidents.map] of the listing. *)
Definition view (i : Incident) : IncidentView := {|
  view_id := _id i;
  view_title := title i;
  view_address := address (location i);
  view_type := type i;
  view_severity := severity i;
  view_status := or_text (Some (status i)) "pending";
  view_description := description i;
  view_photoUrl := if present (photoUrl i) then photoUrl i else None;
  view_reporter_name := reporter_name (reportedBy i);
  view_reporter_email := reporter_email (reportedBy i);
  view_createdAt := createdAt i;
  view_comments := comments i
|}.

(** The [$set] of a status update. *)
Definition set_status (s : string) (now : Time) (who : Session) (i : Incident) : Incident := {|
  _id := _id i;
  title := title i;
  location := location i;
  type := type i;
  severity := severity i;
  description := description i;
  photoUrl := photoUrl i;
  status := s;
  reportedBy := reportedBy i;
  comments := comments i;
  createdAt := createdAt i;
  updatedAt := now;
  updatedBy := Some {| updater_email := email who; updater_name := name who |}
|}.

(** ** The handler *)

Section Handler.

(** [new ObjectId(v)]; [None] when the constructor throws. *)
Variable ObjectId_new : JsVal -> option ObjectId.

(** [{ $regex: p, $options: 'i' }] applied to a text field; [None]
    when the store rejects the pattern [p]. *)
Variable regex_i : string -> option (string -> bool).

Definition new_ObjectId (v : JsVal) : Try ObjectId :=
  match ObjectId_new v with
  | Some oid => ret oid
  | None => throw BSONError
  end.

Fixpoint compile_clauses (cs : list (Field * string)) : Try (Incident -> bool) :=
  match cs with
  | [] => ret (fun _ => false)
  | (f, p) :: rest =>
      match regex_i p with
      | None => throw MongoServerError
      | Some m =>
          others <- compile_clauses rest ;;
          ret (fun i => m (field_value f i) || others i)
      end
  end.

Definition compile_query (q : Query) : Try (Incident -> bool) :=
  match q with
  | QAll => ret (fun _ => true)
  | QOr cs => compile_clauses cs
  end.

Definition find (q : Query) (l : list Incident) : Try (list Incident) :=
  p <- compile_query q ;; ret (List.filter p l).

Definition countDocuments (q : Query) (l : list Incident) : Try Z :=
  p <- compile_query q ;; ret (Z.of_nat (length (List.filter p l))).

(** The [catch] of a branch: the failure is reported, nothing was
    written (every step that can throw comes before the write). *)
Definition catch (msg : string) (db : DB) (m : Try (Response * DB)) : Response * DB :=
  match m with
  | inl e => (respond 500 (Failure msg e), db)
  | inr r => r
  end.

Definition handle_get (db : DB) (req : Request) : Try (Response * DB) :=
  let page := query_int (query req) "page" 1 in
  let limit := query_int (query req) "limit" 10 in
  let search := query req !! "search" in
  let skip := (page - 1) * limit in
  let q := build_query search in
  found <- find q (incidents db) ;;
  rawIncidents <- window skip limit (sort_desc found) ;;
  total <- countDocuments q (incidents db) ;;
  ret (respond 200 (Listing (map view rawIncidents) total page (ceil_div total limit)), db).

Definition handle_post (db : DB) (session : Session) (env : Env) (req : Request)
  : Try (Response * DB) :=
  f <- form req ;;
  let fs := fields f in
  if negb (present (fs !! "title")) || negb (present (fs !! "location"))
     || negb (present (fs !! "type")) || negb (present (fs !! "severity"))
  then ret (respond 400 (MissingFields "Missing required fields"
              [fs !! "title"; fs !! "location"; fs !! "type"; fs !! "severity"]), db)
  else
    match findUser (email session) (users db) with
    | None => ret (respond 404 (Message "User not found"), db)
    | Some user =>
        let incident := {|
          _id := insertedId env;
          title := default "" (fs !! "title");
          location := {| address := default "" (fs !! "location") |};
          type := default "" (fs !! "type");
          severity := default "" (fs !! "severity");
          description := or_text (fs !! "description") "";
          photoUrl := option_map (fun p => "/uploads/" ++ basename p) (photo f);
          status := "pending";
          reportedBy := {| reporter_id := user_id user;
                           reporter_name := user_name user;
                           reporter_email := user_email user |};
          comments := [];
          createdAt := clock env 0%nat;
          updatedAt := clock env 1%nat;
          updatedBy := None
        |} in
        l <- insertOne incident (incidents db) ;;
        ret (respond 201 (Created "Incident created successfully" incident),
             {| incidents := l; users := users db |})
    end.

Definition handle_patch (db : DB) (session : Session) (env : Env) (req : Request)
  : Try (Response * DB) :=
  if negb (String.eqb (userType session) "official")
  then ret (respond 403 (Message "Not authorized to update incident status"), db)
  else
    id <- get_prop (body req) "id" ;;
    st <- get_prop (body req) "status" ;;
    if negb (truthy id) || negb (truthy st)
    then ret (respond 400 (Message "Incident ID and status are required"), db)
    else if negb (includes validStatuses st)
    then ret (respond 400 (Message "Invalid status value"), db)
    else
      oid <- new_ObjectId id ;;
      let '(l, matched) :=
        updateOne oid (set_status (js_string st) (clock env 0%nat) session) (incidents db) in
      let db' := {| incidents := l; users := users db |} in
      if matched
      then ret (respond 200 (Message "Incident status updated successfully"), db')
      else ret (respond 404 (Message "Incident not found"), db').

Definition handle_delete (db : DB) (session : Session) (req : Request)
  : Try (Response * DB) :=
  let id := query req !! "id" in
  if negb (present id)
  then ret (respond 400 (Message "Incident ID is required"), db)
  else
    oid <- new_ObjectId (JStr (default "" id)) ;;
    match findOne oid (incidents db) with
    | None => ret (respond 404 (Message "Incident not found"), db)
    | Some incident =>
        if negb (String.eqb (reporter_email (reportedBy incident)) (email session))
           && negb (String.eqb (userType session) "official")
        then ret (respond 403 (Message "Not authorized to delete this incident"), db)
        else
          oid' <- new_ObjectId (JStr (default "" id)) ;;
          ret (respond 200 (Message "Incident deleted successfully"),
               {| incidents := deleteOne oid' (incidents db); users := users db |})
    end.

(** The exported handler.  Resolving the session and connecting to the
    database are taken to succeed. *)
Definition handler (db : DB) (session : option Session) (env : Env) (req : Request)
  : Response * DB :=
  match session with
  | None => (respond 401 (Message "Not authenticated"), db)
  | Some s =>
      if String.eqb (method req) "GET"
      then catch "Error fetching incidents" db (handle_get db req)
      else if String.eqb (method req) "POST"
      then catch "Could not create incident" db (handle_post db s env req)
      else if String.eqb (method req) "PATCH"
      then catch "Error updating incident status" db (handle_patch db s env req)
      else if String.eqb (method req) "DELETE"
      then catch "Error deleting incident" db (handle_delete db s req)
      else (respond 405 (Message "Method not allowed"), db)
  end.

(** The databases the handler can produce from one with no incident. *)
Inductive reachable (us : list User) : DB -> Prop :=
| reach_init : reachable us {| incidents := []; users := us |}
| reach_step db session env req :
    reachable us db -> reachable us (snd (handler db session env req)).

End Handler.

(** ** What the specification says of the search *)

Definition lower (c : ascii) : ascii :=
  let n := nat_of_ascii c in
  if (Nat.leb 65 n && Nat.leb n 90)%bool then ascii_of_nat (n + 32) else c.

Definition fold_case (s : string) : list ascii := map lower (list_ascii_of_string s).

(** The term occurs in the text as a substring, letter case apart. *)
Definition occurs_ci (term text : string) : Prop :=
  exists pre post : list ascii, fold_case text = (pre ++ fold_case term ++ post)%list.

(** The characters a pattern compiler gives a meaning of their own. *)
Definition is_meta (c : ascii) : bool :=
  existsb (Ascii.eqb c) (list_ascii_of_string "\^$.[]|()?*+{}").

Definition no_meta (s : string) : bool :=
  forallb (fun c => negb (is_meta c)) (list_ascii_of_string s).

(** A pattern operator that reads a term without metacharacters as the
    term itself, matched anywhere in the text, letter case apart. *)
Definition literal_on_plain (rx : string -> option (string -> bool)) : Prop :=
  forall p, no_meta p = true ->
    exists m, rx p = Some m /\ forall text, m text = true <-> occurs_ci p text.

(** The record holds the term in one of the four searched fields. *)
Definition occurs_in_record (term : string) (i : Incident) : Prop :=
  occurs_ci term (title i) \/ occurs_ci term (description i) \/
  occurs_ci term (address (location i)) \/ occurs_ci term (type i).

(** ** Reference instances of the two library calls *)

Definition is_hex (c : ascii) : bool :=
  match digit_val c with
  | Some d => d <? 16
  | None => false
  end.

(** The constructor on text: 24 hexadecimal digits, read without regard
    to case.  Values that are not text are outside this instance and
    refused. *)
Definition ObjectId_hex (v : JsVal) : option ObjectId :=
  match v with
  | JStr s =>
      if (Nat.eqb (String.length s) 24 && forallb is_hex (list_ascii_of_string s))%bool
      then Some (string_of_list_ascii (fold_case s))
      else None
  | _ => None
  end.

(** A fragment of the pattern language of the store (PCRE): literals,
    [.], [^], [$], escaped punctuation, groups, [|], and one of [*], [+],
    [?] after an atom. *)
Inductive regex :=
| Empty
| Lit (c : ascii)
| Dot
| Bol
| Eol
| Cat (r1 r2 : regex)
| Alt (r1 r2 : regex)
| Star (r : regex).

Definition cat_of (rs : list regex) : regex := fold_right Cat Empty rs.

(** [alts] and [items] are held newest first. *)
Definition finish (alts items : list regex) : regex :=
  fold_left (fun acc a => Alt a acc) alts (cat_of (rev items)).

Definition is_quantifier (c : ascii) : bool :=
  (Ascii.eqb c "*" || Ascii.eqb c "+" || Ascii.eqb c "?")%bool.

Definition is_alnum (c : ascii) : bool :=
  match digit_val c with
  | Some _ => true
  | None => false
  end.

(** An atom and what follows it: at most one quantifier. *)
Definition quantify (a : regex) (s : list ascii) : option (regex * list ascii) :=
  match s with
  | q :: rest =>
      if is_quantifier q then
        match rest with
        | q' :: _ => if is_quantifier q' then None else
            Some (if Ascii.eqb q "*" then Star a
                  else if Ascii.eqb q "+" then Cat a (Star a)
                  else Alt a Empty, rest)
        | [] =>
            Some (if Ascii.eqb q "*" then Star a
                  else if Ascii.eqb q "+" then Cat a (Star a)
                  else Alt a Empty, rest)
        end
      else Some (a, s)
  | [] => Some (a, [])
  end.

(** An atom that is not a group. *)
Definition read_atom (c : ascii) (rest : list ascii) : option (regex * list ascii) :=
  if Ascii.eqb c "." then Some (Dot, rest)
  else if Ascii.eqb c "\" then
    match rest with
    | e :: rest' => if is_alnum e then None else Some (Lit e, rest')
    | [] => None
    end
  else if is_meta c then None
  else Some (Lit c, rest).

(** Reads one level of a pattern, up to its closing parenthesis or the
    end.  [None]: the pattern is ill-formed or leaves the fragment. *)
Fixpoint parse (fuel : nat) (alts items : list regex) (s : list ascii)
  : option (regex * list ascii) :=
  match fuel with
  | O => None
  | S fuel' =>
      match s with
      | [] => Some (finish alts items, [])
      | c :: rest =>
          if Ascii.eqb c ")" then Some (finish alts items, s)
          else if Ascii.eqb c "|" then parse fuel' (cat_of (rev items) :: alts) [] rest
          else if Ascii.eqb c "^" then parse fuel' alts (Bol :: items) rest
          else if Ascii.eqb c "$" then parse fuel' alts (Eol :: items) rest
          else
            let atom :=
              if Ascii.eqb c "(" then
                match rest with
                | "?"%char :: _ => None
                | _ =>
                    match parse fuel' [] [] rest with
                    | Some (g, ")"%char :: rest') => Some (g, rest')
                    | _ => None
                    end
                end
              else read_atom c rest in
            match atom ≫= (fun '(a, r) => quantify a r) with
            | Some (a, rest') => parse fuel' alts (a :: items) rest'
            | None => None
            end
      end
  end.

Definition parse_pattern (p : string) : option regex :=
  let s := list_ascii_of_string p in
  match parse (S (length s)) [] [] s with
  | Some (r, []) => Some r
  | _ => None
  end.

(** The positions a match of [r] that starts at [i] can end at. *)
Fixpoint closure (fuel : nat) (step : nat -> list nat) (front : list nat) : list nat :=
  match fuel with
  | O => front
  | S k => (front ++ closure k step (flat_map step front))%list
  end.

Definition same_letter (c d : ascii) : bool := Ascii.eqb (lower c) (lower d).

Definition newline : ascii := ascii_of_nat 10.

Fixpoint ends (text : list ascii) (r : regex) (i : nat) : list nat :=
  match r with
  | Empty => [i]
  | Lit c =>
      match text !! i with
      | Some d => if same_letter c d then [S i] else []
      | None => []
      end
  | Dot =>
      match text !! i with
      | Some d => if Ascii.eqb d newline then [] else [S i]
      | None => []
      end
  | Bol => if Nat.eqb i 0 then [i] else []
  | Eol =>
      if Nat.eqb i (length text) then [i]
      else if (Nat.eqb (S i) (length text) && bool_decide (text !! i = Some newline))%bool
      then [i] else []
  | Cat r1 r2 => flat_map (ends text r2) (ends text r1 i)
  | Alt r1 r2 => (ends text r1 i ++ ends text r2 i)%list
  | Star r1 => closure (S (length text)) (ends text r1) [i]
  end.

Definition is_nil {A} (l : list A) : bool :=
  match l with
  | [] => true
  | _ => false
  end.

(** An unanchored search: a match may start anywhere. *)
Definition search (r : regex) (text : list ascii) : bool :=
  existsb (fun i => negb (is_nil (ends text r i))) (seq 0 (S (length text))).

(** The operator on the fragment, case-insensitive as [$options: 'i']
    asks.  Patterns outside the fragment are refused like ill-formed
    ones. *)
Definition regex_fragment (p : string) : option (string -> bool) :=
  match parse_pattern p with
  | Some r => Some (fun text => search r (list_ascii_of_string text))
  | None => None
  end.

(** ** Sample data for concrete runs *)

Definition alice : Session := {| email := "alice@example.org"; name := "Alice"; userType := "user" |}.
Definition bob : Session := {| email := "bob@example.org"; name := "Bob"; userType := "admin" |}.
Definition carol : Session := {| email := "carol@example.org"; name := "Carol"; userType := "official" |}.

Definition alice_user : User :=
  {| user_id := "64b000000000000000000001"; user_name := "Alice"; user_email := "alice@example.org" |}.

Definition collision : Incident := {|
  _id := "507f1f77bcf86cd799439011";
  title := "Bus collision";
  location := {| address := "5th Ave" |};
  type := "collision";
  severity := "high";
  description := "";
  photoUrl := None;
  status := "pending";
  reportedBy := {| reporter_id := "64b000000000000000000001";
                   reporter_name := "Alice";
                   reporter_email := "alice@example.org" |};
  comments := [];
  createdAt := 1000;
  updatedAt := 1000;
  updatedBy := None
|}.

Definition db0 : DB := {| incidents := [collision]; users := [alice_user] |}.

Definition env0 : Env :=
  {| clock := fun k => 2000 + Z.of_nat k; insertedId := "507f1f77bcf86cd799439012" |}.

Definition request (m : string) (q : list (string * string)) (b : JsVal) (f : Try Form) : Request :=
  {| method := m; query := list_to_map q; body := b; form := f |}.

Definition get_request (q : list (string * string)) : Request :=
  request "GET" q JUndefined (throw FormError).

Definition delete_request (id : string) : Request :=
  request "DELETE" [("id", id)] JUndefined (throw FormError).

Definition patch_request (b : JsVal) : Request :=
  request "PATCH" [] b (throw FormError).

Definition post_request (fs : list (string * string)) : Request :=
  request "POST" [] JUndefined (ret {| fields := list_to_map fs; photo := None |}).

Definition collision_id : string := "507f1f77bcf86cd799439011".

Definition resolve_collision : JsVal :=
  JObj [("id", JStr collision_id); ("status", JStr "resolved")].

Definition archive_collision : JsVal :=
  JObj [("id", JStr collision_id); ("status", JStr "archived")].

Definition bus_form : list (string * string) :=
  [("title", "Bus collision"); ("location", "5th Ave"); ("type", "collision");
   ("severity", "high"); ("reportedBy", "mallory@example.org")].

Definition db_empty : DB := {| incidents := []; users := [alice_user] |}.

(** The database after Alice reported the collision. *)
Definition db_reported : DB :=
  snd (handler ObjectId_hex regex_fragment db_empty (Some alice) env0 (post_request bus_form)).

(** A request with another query string. *)
Definition with_query (req : Request) (q : gmap string string) : Request :=
  {| method := method req; query := q; body := body req; form := form req |}.

(** ** Deciding occurrence *)

Fixpoint prefix_ci (p s : list ascii) : bool :=
  match p, s with
  | [], _ => true
  | c :: p', d :: s' => same_letter c d && prefix_ci p' s'
  | _ :: _, [] => false
  end.

(** [g] holds of the text or of one of its suffixes. *)
Fixpoint some_suffix (g : list ascii -> bool) (s : list ascii) : bool :=
  g s || match s with
         | [] => false
         | _ :: s' => some_suffix g s'
         end.

Definition occurs_cib (term text : string) : bool :=
  some_suffix (prefix_ci (list_ascii_of_string term)) (list_ascii_of_string text).

(** ** Order and invariant of the incident collection *)

(** The order [sort({ createdAt: -1 })] asks for. *)
Definition newer_first (a b : Incident) : Prop := createdAt b <= createdAt a.

Definition valid_status (i : Incident) : Prop := In (status i) validStatuses.

Definition statuses_valid (db : DB) : Prop := Forall valid_status (incidents db).

(** No two incidents share an identifier. *)
Definition ids_unique (db : DB) : Prop := List.NoDup (map _id (incidents db)).

(** ** Further definitions *)

(** The four fields a creation asks for are there and not empty. *)
Definition required_present (f : Form) : bool :=
  present (fields f !! "title") && present (fields f !! "location")
  && present (fields f !! "type") && present (fields f !! "severity").

(** The incident a creation builds from the form and the user record. *)
Definition new_incident (f : Form) (user : User) (env : Env) : Incident := {|
  _id := insertedId env;
  title := default "" (fields f !! "title");
  location := {| address := default "" (fields f !! "location") |};
  type := default "" (fields f !! "type");
  severity := default "" (fields f !! "severity");
  description := or_text (fields f !! "description") "";
  photoUrl := option_map (fun p => "/uploads/" ++ basename p) (photo f);
  status := "pending";
  reportedBy := {| reporter_id := user_id user;
                   reporter_name := user_name user;
                   reporter_email := user_email user |};
  comments := [];
  createdAt := clock env 0%nat;
  updatedAt := clock env 1%nat;
  updatedBy := None
|}.

(** The incidents a response lists. *)
Definition listed (r : Response) : list IncidentView :=
  match payload r with
  | Listing items _ _ _ => items
  | _ => []
  end.

(** ** Text the model reads as the program does *)

(** ASCII text: on it [String.prototype.toLowerCase] changes the letters
    A to Z and nothing else. *)
Definition is_ascii (c : ascii) : bool := Nat.ltb (nat_of_ascii c) 128.

Definition ascii_text (s : string) : bool := forallb is_ascii (list_ascii_of_string s).

(** The three fields of a card the dashboard searches, and the four
    fields of a stored incident the route searches. *)
Definition ascii_card (v : IncidentView) : bool :=
  ascii_text (view_title v) && ascii_text (view_address v) && ascii_text (view_type v).

Definition ascii_fields (i : Incident) : bool :=
  ascii_text (title i) && ascii_text (address (location i)) && ascii_text (type i)
  && ascii_text (description i).

(** Text a URL carries as it is, unencoded: letters, digits, [-], [_]
    and [~]. *)
Definition url_plain (s : string) : bool :=
  forallb (fun c => is_alnum c || Ascii.eqb c "-" || Ascii.eqb c "_" || Ascii.eqb c "~")
          (list_ascii_of_string s).

(** ** Numbers in a URL *)

Definition digit_char (d : nat) : ascii := ascii_of_nat (48 + d).

(** The decimal digits of [n] put before [acc], most significant
    first. *)
Fixpoint decimal_digits (fuel n : nat) (acc : list ascii) : list ascii :=
  match fuel with
  | O => acc
  | S fuel' =>
      let acc' := digit_char (n mod 10) :: acc in
      if (n <? 10)%nat then acc' else decimal_digits fuel' (n / 10) acc'
  end.

(** [`${n}`] for a natural number [n], as in [page=${page}]: plain
    digits, for the [n] up to [max_safe] that a number holds exactly. *)
Definition decimal (n : nat) : string :=
  string_of_list_ascii (decimal_digits (S n) n []).

(** ** The dashboard page, client of the route *)

Module Dashboard.

(** [String.prototype.toLowerCase] on ASCII text ([ascii_text]); the
    folding of other letters is not modelled. *)
Definition toLowerCase (s : string) : string := string_of_list_ascii (fold_case s).

Fixpoint starts_with (needle hay : list ascii) : bool :=
  match needle, hay with
  | [], _ => true
  | c :: needle', d :: hay' => Ascii.eqb c d && starts_with needle' hay'
  | _ :: _, [] => false
  end.

(** [hay.includes(needle)] on strings. *)
Definition includes (hay needle : string) : bool :=
  some_suffix (starts_with (list_ascii_of_string needle)) (list_ascii_of_string hay).

(** [filteredIncidents]: what the page shows of the incidents it
    fetched. *)
Definition filteredIncidents (searchQuery : string) (incidents : list IncidentView)
  : list IncidentView :=
  List.filter
    (fun incident =>
       let searchLower := toLowerCase searchQuery in
       includes (toLowerCase (view_title incident)) searchLower
       || includes (toLowerCase (view_address incident)) searchLower
       || includes (toLowerCase (view_type incident)) searchLower)
    incidents.

Definition pageSize : Z := 10.

(** [setTotalPages(Math.ceil(data.total / pageSize))] in [fetchIncidents]. *)
Definition totalPages_of (total : Z) : Z := ceil_div total pageSize.

(** The two paging buttons: [disabled] and [onClick]. *)
Definition previousDisabled (page : Z) : bool := page =? 1.
Definition nextDisabled (page totalPages : Z) : bool := page =? totalPages.

Definition clickPrevious (page : Z) : Z :=
  if previousDisabled page then page else Z.max 1 (page - 1).

Definition clickNext (page totalPages : Z) : Z :=
  if nextDisabled page totalPages then page else Z.min totalPages (page + 1).

Inductive Click := Previous | Next.

Definition click (totalPages : Z) (page : Z) (c : Click) : Z :=
  match c with
  | Previous => clickPrevious page
  | Next => clickNext page totalPages
  end.

(** [{ ...incident, status: newStatus }] *)
Definition with_status (incident : IncidentView) (newStatus : string) : IncidentView := {|
  view_id := view_id incident;
  view_title := view_title incident;
  view_address := view_address incident;
  view_type := view_type incident;
  view_severity := view_severity incident;
  view_status := newStatus;
  view_description := view_description incident;
  view_photoUrl := view_photoUrl incident;
  view_reporter_name := view_reporter_name incident;
  view_reporter_email := view_reporter_email incident;
  view_createdAt := view_createdAt incident;
  view_comments := view_comments incident
|}.

(** The update of the fetched incidents that [handleStatusUpdate] makes
    once the route has answered ok. *)
Definition setStatus (id : ObjectId) (newStatus : string) (prevIncidents : list IncidentView)
  : list IncidentView :=
  map (fun incident =>
         if String.eqb (view_id incident) id then with_status incident newStatus
         else incident)
      prevIncidents.

(** The body [handleStatusUpdate] sends. *)
Definition statusUpdateBody (id : ObjectId) (newStatus : string) : JsVal :=
  JObj [("id", JStr id); ("status", JStr newStatus)].

(** Whether a card carries the Delete button, and the Update Status
    button. *)
Definition showsDelete (session : Session) (incident : IncidentView) : bool :=
  String.eqb (email session) (view_reporter_email incident).

Definition showsUpdateStatus (session : Session) : bool :=
  String.eqb (userType session) "official".

End Dashboard.

(** ** The second route file

    [src/components/Layout.tsx] holds, after the layout component, a
    second handler for incidents (lines 148-254; by its imports a file
    of [pages/api]).  It lists and deletes only.  Its deletion tests
    whether [id] is a text; a [Request] holds each query parameter as
    one text, so the deletion is given as a function of the [id], which
    can also be the list that a parameter given several times is. *)

Module ApiIncidents.

Inductive Payload :=
| Message (message : string)
| Listing (incidents : list Incident) (total page totalPages : Z).

(** [allow] is the [Allow] header, set on a 405 only. *)
Record Response := {
  code : Z;
  allow : list string;
  payload : Payload
}.

Definition respond (c : Z) (p : Payload) : Response :=
  {| code := c; allow := []; payload := p |}.

(** [query.$or = [title, description, location.address]] *)
Definition build_query (search : option string) : Query :=
  match search with
  | Some s =>
      if String.eqb s "" then QAll
      else QOr [(FTitle, s); (FDescription, s); (FAddress, s)]
  | None => QAll
  end.

(** What [req.query] holds for a parameter: one text, or the list of
    the texts of a parameter given several times. *)
Inductive QueryValue :=
| One (s : string)
| Many (l : list string).

(** [!id || typeof id !== 'string']: a list is truthy and not a text. *)
Definition invalid_id (id : option QueryValue) : bool :=
  match id with
  | Some (One s) => String.eqb s ""
  | Some (Many _) => true
  | None => true
  end.

Definition id_text (id : option QueryValue) : string :=
  match id with
  | Some (One s) => s
  | _ => ""
  end.

Section Handler.

Variable ObjectId_new : JsVal -> option ObjectId.
Variable regex_i : string -> option (string -> bool).

Definition catch (msg : string) (db : DB) (m : Try (Response * DB)) : Response * DB :=
  match m with
  | inl _ => (respond 500 (Message msg), db)
  | inr r => r
  end.

Definition handle_get (db : DB) (req : Request) : Try (Response * DB) :=
  let page := query_int (query req) "page" 1 in
  let limit := query_int (query req) "limit" 10 in
  let skip := (page - 1) * limit in
  let search := query req !! "search" in
  let q := build_query search in
  total <- countDocuments regex_i q (incidents db) ;;
  found <- find regex_i q (incidents db) ;;
  incidents <- window skip limit (sort_desc found) ;;
  ret (respond 200 (Listing incidents total page (ceil_div total limit)), db).

Definition delete_incident (db : DB) (session : Session) (id : option QueryValue)
  : Response * DB :=
  if invalid_id id
  then (respond 400 (Message "Invalid incident ID"), db)
  else
    catch "Error deleting incident" db (
      oid <- new_ObjectId ObjectId_new (JStr (id_text id)) ;;
      match findOne oid (incidents db) with
      | None => ret (respond 404 (Message "Incident not found"), db)
      | Some incident =>
          if negb (String.eqb (reporter_email (reportedBy incident)) (email session))
             && negb (String.eqb (userType session) "admin")
             && negb (String.eqb (userType session) "official")
          then ret (respond 403 (Message "Not authorized to delete this incident"), db)
          else
            oid' <- new_ObjectId ObjectId_new (JStr (id_text id)) ;;
            match findOne oid' (incidents db) with
            | None => ret (respond 404 (Message "Incident not found"), db)
            | Some _ =>
                ret (respond 200 (Message "Incident deleted successfully"),
                     {| incidents := deleteOne oid' (incidents db); users := users db |})
            end
      end).

Definition handle_delete (db : DB) (session : Session) (req : Request)
  : Response * DB :=
  delete_incident db session (One <$> query req !! "id").

Definition handler (db : DB) (session : option Session) (req : Request)
  : Response * DB :=
  match session with
  | None => (respond 401 (Message "Not authenticated"), db)
  | Some s =>
      if String.eqb (method req) "GET"
      then catch "Error fetching incidents" db (handle_get db req)
      else if String.eqb (method req) "DELETE"
      then handle_delete db s req
      else ({| code := 405; allow := ["GET"; "DELETE"];
               payload := Message ("Method " ++ method req ++ " not allowed") |}, db)
  end.

End Handler.

End ApiIncidents.

(** ** More sample data *)

(** The incident Alice's report creates. *)
Definition reported : Incident :=
  new_incident {| fields := list_to_map bus_form; photo := None |} alice_user env0.

(** A second incident, newer than the collision, whose description alone
    names a stop. *)
Definition pothole : Incident := {|
  _id := "507f1f77bcf86cd799439013";
  title := "Pothole";
  location := {| address := "Main St" |};
  type := "road";
  severity := "low";
  description := "Right before the tram stop";
  photoUrl := None;
  status := "pending";
  reportedBy := {| reporter_id := "64b000000000000000000001";
                   reporter_name := "Alice";
                   reporter_email := "alice@example.org" |};
  comments := [];
  createdAt := 1500;
  updatedAt := 1500;
  updatedBy := None
|}.

Definition db_two : DB := {| incidents := [collision; pothole]; users := [alice_user] |}.

(** The listing of page [k + 1] with one incident a page. *)
Definition one_a_page (k : nat) : Request :=
  with_query (get_request []) (<["page" := decimal (S k)]> (<["limit" := "1"]> ∅)).

(** The listing the dashboard asks for. *)
Definition dashboard_request (page : nat) : Request :=
  with_query (get_request []) (<["page" := decimal page]> (<["limit" := decimal 10]> ∅)).

(** * Properties *)

Local Open Scope list_scope.

(** ** The collection operations *)

Lemma findOne_Some oid l i : findOne oid l = Some i -> In i l /\ _id i = oid.
Proof.
  unfold findOne. intros H. apply find_some in H as [Hin Hid].
  split; [exact Hin|]. unfold has_id in Hid. now apply String.eqb_eq.
Qed.

Lemma findOne_None oid l : findOne oid l = None <-> (forall i, In i l -> _id i <> oid).
Proof.
  unfold findOne. split.
  - intros H i Hin Heq. apply (find_none _ _ H) in Hin.
    unfold has_id in Hin. apply String.eqb_neq in Hin. contradiction.
  - intros H. induction l as [|j l IH]; [reflexivity|]. simpl.
    destruct (has_id oid j) eqn:E.
    + unfold has_id in E. apply String.eqb_eq in E. exfalso. apply (H j); [now left|exact E].
    + apply IH. intros i Hin. apply H. now right.
Qed.

Lemma findOne_split oid l i :
  findOne oid l = Some i ->
  exists l1 l2, l = l1 ++ i :: l2 /\ findOne oid l1 = None /\ _id i = oid.
Proof.
  unfold findOne. induction l as [|j l IH]; simpl; [discriminate|].
  destruct (has_id oid j) eqn:E.
  - intros [= ->]. exists [], l. repeat split.
    unfold has_id in E. now apply String.eqb_eq.
  - intros H. destruct (IH H) as (l1 & l2 & -> & Hn & Hid).
    exists (j :: l1), l2. repeat split; [|exact Hid]. simpl. now rewrite E.
Qed.

Lemma updateOne_split oid f l1 i l2 :
  findOne oid l1 = None -> _id i = oid ->
  updateOne oid f (l1 ++ i :: l2) = (l1 ++ f i :: l2, true).
Proof.
  unfold findOne. intros Hn Hid. induction l1 as [|j l1 IH]; simpl in *.
  - unfold has_id. rewrite Hid, String.eqb_refl. reflexivity.
  - destruct (has_id oid j); [discriminate|]. now rewrite (IH Hn).
Qed.

Lemma updateOne_miss oid f l : findOne oid l = None -> updateOne oid f l = (l, false).
Proof.
  unfold findOne. induction l as [|j l IH]; simpl; [reflexivity|].
  destruct (has_id oid j); [discriminate|]. intros H. now rewrite (IH H).
Qed.

Lemma deleteOne_split oid l1 i l2 :
  findOne oid l1 = None -> _id i = oid ->
  deleteOne oid (l1 ++ i :: l2) = l1 ++ l2.
Proof.
  unfold findOne. intros Hn Hid. induction l1 as [|j l1 IH]; simpl in *.
  - unfold has_id. now rewrite Hid, String.eqb_refl.
  - destruct (has_id oid j); [discriminate|]. now rewrite (IH Hn).
Qed.

Lemma unique_gone l1 l2 i oid :
  List.NoDup (map _id (l1 ++ i :: l2)) -> _id i = oid -> findOne oid (l1 ++ l2) = None.
Proof.
  intros Hu Hi. apply findOne_None. intros j Hj Heq.
  rewrite map_app in Hu. simpl in Hu. apply NoDup_remove_2 in Hu.
  apply Hu. rewrite <- map_app, Hi, <- Heq. now apply in_map.
Qed.

(** The bodies of the handler and of its branches. *)
Ltac open_handler := unfold handler.
Ltac open_get := unfold handle_get, find, countDocuments.
Ltac open_post := unfold handle_post.
Ltac open_patch := unfold handle_patch.
Ltac open_delete := unfold handle_delete.

Section Properties.

Variable ObjectId_new : JsVal -> option ObjectId.
Variable regex_i : string -> option (string -> bool).

Local Abbreviation handler := (handler ObjectId_new regex_i).
Local Abbreviation handle_get := (handle_get regex_i).
Local Abbreviation handle_patch := (handle_patch ObjectId_new).
Local Abbreviation handle_delete := (handle_delete ObjectId_new).
Local Abbreviation compile_query := (compile_query regex_i).
Local Abbreviation reachable := (reachable ObjectId_new regex_i).

(** ** Dispatch on the method *)

Lemma handler_get db s env req :
  method req = "GET" ->
  handler db (Some s) env req = catch "Error fetching incidents" db (handle_get db req).
Proof. intros H. open_handler. now rewrite H. Qed.

Lemma handler_post db s env req :
  method req = "POST" ->
  handler db (Some s) env req = catch "Could not create incident" db (handle_post db s env req).
Proof. intros H. open_handler. now rewrite H. Qed.

Lemma handler_patch db s env req :
  method req = "PATCH" ->
  handler db (Some s) env req =
  catch "Error updating incident status" db (handle_patch db s env req).
Proof. intros H. open_handler. now rewrite H. Qed.

Lemma handler_delete db s env req :
  method req = "DELETE" ->
  handler db (Some s) env req = catch "Error deleting incident" db (handle_delete db s req).
Proof. intros H. open_handler. now rewrite H. Qed.

(** ** Status update: who may *)

Lemma patch_not_official db s env req :
  String.eqb (userType s) "official" = false ->
  handle_patch db s env req =
  ret (respond 403 (Message "Not authorized to update incident status"), db).
Proof. intros H. open_patch. now rewrite H. Qed.

(** What a status update by an official can answer: never 403. *)
Lemma patch_official_code db s env req :
  String.eqb (userType s) "official" = true ->
  code (fst (catch "Error updating incident status" db (handle_patch db s env req))) <> 403.
Proof.
  intros H. open_patch. rewrite H. simpl.
  destruct (get_prop (body req) "id") as [e|id]; simpl; [discriminate|].
  destruct (get_prop (body req) "status") as [e|st]; simpl; [discriminate|].
  destruct (negb (truthy id) || negb (truthy st)); simpl; [discriminate|].
  destruct (negb (includes validStatuses st)); simpl; [discriminate|].
  unfold new_ObjectId. destruct (ObjectId_new id) as [oid|]; simpl; [|discriminate].
  destruct (updateOne oid _ (incidents db)) as [l [|]]; simpl; discriminate.
Qed.

(** C1. A status update asked by an authenticated caller whose role is
    not exactly [official] (be it [admin], be it the owner of the
    incident) is answered 403 Forbidden and the database is left as it
    was; a status update is answered Forbidden only to such a caller. *)
Theorem status_update_only_official db s env req :
  method req = "PATCH" ->
  (String.eqb (userType s) "official" = false ->
   handler db (Some s) env req =
     (respond 403 (Message "Not authorized to update incident status"), db) /\
   error_kind (fst (handler db (Some s) env req)) = Some Forbidden) /\
  (error_kind (fst (handler db (Some s) env req)) = Some Forbidden <->
   userType s <> "official").
Proof.
  intros Hm. rewrite (handler_patch _ _ _ _ Hm).
  assert (Hno : String.eqb (userType s) "official" = false ->
                catch "Error updating incident status" db (handle_patch db s env req) =
                (respond 403 (Message "Not authorized to update incident status"), db)).
  { intros H. now rewrite (patch_not_official _ _ _ _ H). }
  split.
  - intros H. rewrite (Hno H). split; reflexivity.
  - destruct (String.eqb (userType s) "official") eqn:E.
    + split.
      * intros Hk. exfalso. apply (patch_official_code db s env req E).
        unfold error_kind in Hk.
        destruct (code _ =? 401) eqn:E1; [discriminate|].
        destruct (code _ =? 403) eqn:E2; [now apply Z.eqb_eq|].
        repeat (match type of Hk with (if ?c then _ else _) = _ => destruct c end; try discriminate).
      * intros Hne. apply String.eqb_eq in E. contradiction.
    + rewrite (Hno eq_refl). split; [|reflexivity].
      intros _. now apply String.eqb_neq.
Qed.

(** C10. In a status update the role is checked before the input: a
    caller who is not an official is answered 403 Forbidden whatever
    the body holds (no identifier, no status, a status outside the
    list, no body at all); the two validation answers, 400, go to
    officials only, and an official does get them. *)
Theorem authorization_precedes_validation db s env req :
  method req = "PATCH" ->
  (String.eqb (userType s) "official" = false ->
   forall b, handler db (Some s) env
               {| method := method req; query := query req; body := b; form := form req |} =
             (respond 403 (Message "Not authorized to update incident status"), db)) /\
  (error_kind (fst (handler db (Some s) env req)) = Some ValidationError ->
   userType s = "official") /\
  (userType s = "official" ->
   forall id st, get_prop (body req) "id" = ret id -> get_prop (body req) "status" = ret st ->
     (truthy id && truthy st = false ->
      handler db (Some s) env req =
        (respond 400 (Message "Incident ID and status are required"), db)) /\
     (truthy id && truthy st = true -> includes validStatuses st = false ->
      handler db (Some s) env req = (respond 400 (Message "Invalid status value"), db))).
Proof.
  intros Hm. split; [|split].
  - intros H b. rewrite handler_patch by exact Hm.
    now rewrite (patch_not_official _ _ _ _ H).
  - intros Hk. destruct (String.eqb (userType s) "official") eqn:E.
    + now apply String.eqb_eq.
    + rewrite (handler_patch _ _ _ _ Hm), (patch_not_official _ _ _ _ E) in Hk.
      discriminate.
  - intros Ho id st Hid Hst. apply String.eqb_eq in Ho.
    rewrite (handler_patch _ _ _ _ Hm). open_patch.
    rewrite Ho, Hid, Hst. simpl. split.
    + intros Ht. destruct (truthy id), (truthy st); try discriminate; reflexivity.
    + intros Ht Hv. apply andb_true_iff in Ht as [-> ->]. simpl. now rewrite Hv.
Qed.

(** ** Status update: what is written *)

Lemma includes_valid st :
  includes validStatuses st = true -> st = JStr (js_string st) /\ In (js_string st) validStatuses.
Proof.
  destruct st; try (simpl; discriminate). unfold includes, js_string.
  intros H. split; [reflexivity|].
  apply existsb_exists in H as (x & Hin & Hx). apply String.eqb_eq in Hx. now subst.
Qed.

(** The branch of a status update, case by case. *)
Lemma patch_cases db s env req :
  String.eqb (userType s) "official" = true ->
  let r := catch "Error updating incident status" db (handle_patch db s env req) in
  (code (fst r) = 200 /\
   exists id st oid l1 i l2,
     get_prop (body req) "id" = ret id /\ get_prop (body req) "status" = ret (JStr st) /\
     In st validStatuses /\ ObjectId_new id = Some oid /\
     incidents db = l1 ++ i :: l2 /\ findOne oid l1 = None /\ _id i = oid /\
     snd r = {| incidents := l1 ++ set_status st (clock env 0%nat) s i :: l2;
                users := users db |}) \/
  (code (fst r) <> 200 /\ snd r = db).
Proof.
  intros Ho r. subst r. open_patch. rewrite Ho. simpl.
  destruct (get_prop (body req) "id") as [e|id] eqn:Hid; simpl; [right; split; [discriminate|reflexivity]|].
  destruct (get_prop (body req) "status") as [e|st] eqn:Hst; simpl; [right; split; [discriminate|reflexivity]|].
  destruct (negb (truthy id) || negb (truthy st)); simpl; [right; split; [discriminate|reflexivity]|].
  destruct (includes validStatuses st) eqn:Hv; simpl; [|right; split; [discriminate|reflexivity]].
  unfold new_ObjectId. destruct (ObjectId_new id) as [oid|] eqn:Hoid; simpl;
    [|right; split; [discriminate|reflexivity]].
  destruct (includes_valid _ Hv) as [Hs Hin].
  destruct (findOne oid (incidents db)) as [i|] eqn:Hf.
  - destruct (findOne_split _ _ _ Hf) as (l1 & l2 & Hl & Hn & Hi).
    rewrite Hl, (updateOne_split _ _ _ _ _ Hn Hi). simpl. left. split; [reflexivity|].
    exists id, (js_string st), oid, l1, i, l2. rewrite <- Hs. repeat split; auto.
  - rewrite (updateOne_miss _ _ _ Hf). simpl. right. split; [discriminate|].
    now destruct db.
Qed.

(** C8. A status update that succeeds rewrites one incident, the one
    with the identifier asked for, and on it the three fields [status]
    (the status asked for), [updatedAt] (the clock reading) and
    [updatedBy] (email and name of the acting official); its other
    fields, the other incidents and the users stay as they were. *)
Theorem status_update_frame db s env req :
  method req = "PATCH" ->
  code (fst (handler db (Some s) env req)) = 200 ->
  exists st l1 i i' l2,
    get_prop (body req) "status" = ret (JStr st) /\
    incidents db = l1 ++ i :: l2 /\
    snd (handler db (Some s) env req) = {| incidents := l1 ++ i' :: l2; users := users db |} /\
    (exists id, get_prop (body req) "id" = ret id /\ ObjectId_new id = Some (_id i)) /\
    findOne (_id i) l1 = None /\
    userType s = "official" /\
    status i' = st /\
    updatedAt i' = clock env 0%nat /\
    updatedBy i' = Some {| updater_email := email s; updater_name := name s |} /\
    _id i' = _id i /\ title i' = title i /\ location i' = location i /\
    type i' = type i /\ severity i' = severity i /\ description i' = description i /\
    photoUrl i' = photoUrl i /\ reportedBy i' = reportedBy i /\
    comments i' = comments i /\ createdAt i' = createdAt i.
Proof.
  intros Hm. rewrite (handler_patch _ _ _ _ Hm).
  destruct (String.eqb (userType s) "official") eqn:Ho.
  - destruct (patch_cases db s env req Ho) as [[_ H]|[Hc _]]; [|intros Hc'; contradiction].
    destruct H as (id & st & oid & l1 & i & l2 & Hid & Hst & Hin & Hoid & Hl & Hn & Hi & Hdb).
    intros _. exists st, l1, i, (set_status st (clock env 0%nat) s i), l2.
    subst oid. apply String.eqb_eq in Ho.
    repeat split; auto. exists id. now split.
  - rewrite (patch_not_official _ _ _ _ Ho). simpl. discriminate.
Qed.

(** ** Creation *)

(** The branch of a creation, case by case. *)
Lemma post_cases db s env req :
  let r := catch "Could not create incident" db (handle_post db s env req) in
  (code (fst r) = 201 /\
   exists f user inc,
     form req = ret f /\ findUser (email s) (users db) = Some user /\
     findOne (insertedId env) (incidents db) = None /\
     _id inc = insertedId env /\
     status inc = "pending" /\ comments inc = [] /\
     reportedBy inc = {| reporter_id := user_id user;
                         reporter_name := user_name user;
                         reporter_email := user_email user |} /\
     payload (fst r) = Created "Incident created successfully" inc /\
     snd r = {| incidents := incidents db ++ [inc]; users := users db |}) \/
  (code (fst r) <> 201 /\ snd r = db).
Proof.
  intros r. subst r. open_post.
  destruct (form req) as [e|f] eqn:Hf; simpl; [right; split; [discriminate|reflexivity]|].
  match goal with |- context [if ?c then _ else _] => destruct c end;
    simpl; [right; split; [discriminate|reflexivity]|].
  destruct (findUser (email s) (users db)) as [user|] eqn:Hu; simpl;
    [|right; split; [discriminate|reflexivity]].
  unfold insertOne. simpl.
  destruct (findOne (insertedId env) (incidents db)) eqn:Hfree; simpl;
    [right; split; [discriminate|reflexivity]|].
  left. split; [reflexivity|].
  eexists f, user, _. repeat split; reflexivity.
Qed.

Lemma findUser_email e l u : findUser e l = Some u -> user_email u = e.
Proof.
  unfold findUser. intros H. apply find_some in H as [_ H]. now apply String.eqb_eq.
Qed.

(** C7. A creation that succeeds appends one incident whose status is
    [pending], whose comments are empty and whose [reportedBy] is the
    identifier, name and email of the user record found under the
    caller's session email, whatever fields the form carries; and a
    creation succeeds as soon as the four required fields are filled in,
    the caller's user record exists and the identifier is new. *)
Theorem create_snapshot db s env req :
  method req = "POST" ->
  (code (fst (handler db (Some s) env req)) = 201 ->
   exists user inc,
     findUser (email s) (users db) = Some user /\
     user_email user = email s /\
     snd (handler db (Some s) env req) =
       {| incidents := incidents db ++ [inc]; users := users db |} /\
     payload (fst (handler db (Some s) env req)) = Created "Incident created successfully" inc /\
     status inc = "pending" /\
     comments inc = [] /\
     reportedBy inc = {| reporter_id := user_id user;
                         reporter_name := user_name user;
                         reporter_email := user_email user |}) /\
  (forall f user,
     form req = ret f ->
     present (fields f !! "title") && present (fields f !! "location")
       && present (fields f !! "type") && present (fields f !! "severity") = true ->
     findUser (email s) (users db) = Some user ->
     findOne (insertedId env) (incidents db) = None ->
     code (fst (handler db (Some s) env req)) = 201).
Proof.
  intros Hm. rewrite (handler_post _ _ _ _ Hm). split.
  - destruct (post_cases db s env req) as [[_ H]|[Hc _]]; [|intros Hc'; contradiction].
    destruct H as (f & user & inc & Hf & Hu & Hfree & Hid & Hst & Hcm & Hrb & Hp & Hdb).
    intros _. exists user, inc. repeat split; auto. exact (findUser_email _ _ _ Hu).
  - intros f user Hf Hp Hu Hfree. open_post. rewrite Hf. simpl.
    apply andb_true_iff in Hp as [Hp H4]. apply andb_true_iff in Hp as [Hp H3].
    apply andb_true_iff in Hp as [H1 H2]. rewrite H1, H2, H3, H4. simpl.
    rewrite Hu. unfold insertOne. simpl. now rewrite Hfree.
Qed.

(** ** Deletion *)

(** C2, as the code has it.  For a deletion asked by an authenticated
    caller with an identifier the driver accepts: when no incident has
    that identifier the answer is 404 Not Found, whoever the caller is
    (the lookup comes before the ownership and role check); when there
    is one and the caller is neither its reporter (by email) nor an
    official, the answer is 403 Forbidden and the database is left as it
    was; when the caller is its reporter or an official (the one
    elevated role of this route) the answer is 200 and that incident, and
    no other, leaves the collection: where identifiers are unique, as
    they are in every database the handler produces, none is left under
    that identifier.  Text the driver does not accept as an identifier
    is answered 500 before any lookup, and no identifier at all 400;
    neither writes. *)
Theorem delete_guard db s env req :
  method req = "DELETE" ->
  (present (query req !! "id") = false ->
   handler db (Some s) env req = (respond 400 (Message "Incident ID is required"), db)) /\
  (forall id, query req !! "id" = Some id -> String.eqb id "" = false ->
     (ObjectId_new (JStr id) = None ->
      handler db (Some s) env req =
        (respond 500 (Failure "Error deleting incident" BSONError), db)) /\
     (forall oid, ObjectId_new (JStr id) = Some oid ->
        (findOne oid (incidents db) = None ->
         handler db (Some s) env req = (respond 404 (Message "Incident not found"), db)) /\
        (forall i, findOne oid (incidents db) = Some i ->
           (reporter_email (reportedBy i) <> email s /\ userType s <> "official" ->
            handler db (Some s) env req =
              (respond 403 (Message "Not authorized to delete this incident"), db)) /\
           (reporter_email (reportedBy i) = email s \/ userType s = "official" ->
            exists l1 l2,
              incidents db = l1 ++ i :: l2 /\ findOne oid l1 = None /\
              handler db (Some s) env req =
                (respond 200 (Message "Incident deleted successfully"),
                 {| incidents := l1 ++ l2; users := users db |}) /\
              (ids_unique db -> findOne oid (l1 ++ l2) = None))))).
Proof.
  intros Hm. rewrite (handler_delete _ _ _ _ Hm). open_delete. split.
  - intros ->. reflexivity.
  - intros id Hq Hne. rewrite Hq. simpl. rewrite Hne. simpl.
    unfold new_ObjectId. split; [intros ->; reflexivity|].
    intros oid Hoid. rewrite Hoid. simpl. split; [intros ->; reflexivity|].
    intros i Hf. rewrite Hf. split.
    + intros [He Hu]. apply String.eqb_neq in He, Hu. now rewrite He, Hu.
    + intros Hor. destruct (findOne_split _ _ _ Hf) as (l1 & l2 & Hl & Hn & Hi).
      exists l1, l2. split; [exact Hl|]. split; [exact Hn|].
      assert (Hg : negb (String.eqb (reporter_email (reportedBy i)) (email s))
                   && negb (String.eqb (userType s) "official") = false).
      { destruct Hor as [H|H]; rewrite H, String.eqb_refl; simpl;
          [reflexivity|apply andb_false_r]. }
      rewrite Hg. simpl. rewrite Hl, (deleteOne_split _ _ _ _ Hn Hi).
      split; [reflexivity|]. intros Hu. apply (unique_gone _ _ i); [|exact Hi].
      unfold ids_unique in Hu. now rewrite Hl in Hu.
Qed.

(** ** The status invariant *)

Lemma get_prop_total v k k' x : get_prop v k = ret x -> exists y, get_prop v k' = ret y.
Proof. destruct v; simpl; try discriminate; eauto. Qed.

Lemma get_keeps_db db req :
  snd (catch "Error fetching incidents" db (handle_get db req)) = db.
Proof.
  open_get. simpl.
  destruct (compile_query (build_query (query req !! "search"))) as [e|p]; simpl; [reflexivity|].
  destruct (window _ _ _) as [e|w]; reflexivity.
Qed.

Lemma delete_cases db s req :
  let r := catch "Error deleting incident" db (handle_delete db s req) in
  snd r = db \/
  exists l1 i l2, incidents db = l1 ++ i :: l2 /\
                  snd r = {| incidents := l1 ++ l2; users := users db |}.
Proof.
  intros r. subst r. open_delete.
  destruct (negb (present (query req !! "id"))); simpl; [now left|].
  unfold new_ObjectId.
  destruct (ObjectId_new _) as [oid|]; simpl; [|now left].
  destruct (findOne oid (incidents db)) as [i|] eqn:Hf; simpl; [|now left].
  match goal with |- context [if ?c then _ else _] => destruct c end; simpl; [now left|].
  destruct (findOne_split _ _ _ Hf) as (l1 & l2 & Hl & Hn & Hi).
  right. exists l1, i, l2. split; [exact Hl|].
  now rewrite Hl, (deleteOne_split _ _ _ _ Hn Hi).
Qed.

Lemma handler_keeps_valid db session env req :
  statuses_valid db -> statuses_valid (snd (handler db session env req)).
Proof.
  intros Hv. open_handler. destruct session as [s|]; [|exact Hv].
  destruct (String.eqb (method req) "GET"); [now rewrite get_keeps_db|].
  destruct (String.eqb (method req) "POST").
  { destruct (post_cases db s env req) as [[_ H]|[_ ->]]; [|exact Hv].
    destruct H as (f & user & inc & _ & _ & _ & _ & Hst & _ & _ & _ & ->).
    unfold statuses_valid in *. simpl. apply Forall_app. split; [exact Hv|].
    constructor; [|constructor]. unfold valid_status. rewrite Hst. simpl. auto. }
  destruct (String.eqb (method req) "PATCH").
  { destruct (String.eqb (userType s) "official") eqn:Ho.
    - destruct (patch_cases db s env req Ho) as [[_ H]|[_ ->]]; [|exact Hv].
      destruct H as (id & st & oid & l1 & i & l2 & _ & _ & Hin & _ & Hl & _ & _ & ->).
      unfold statuses_valid in *. simpl. rewrite Hl in Hv.
      apply Forall_app in Hv as [H1 H2]. inversion H2; subst.
      apply Forall_app. split; [exact H1|]. constructor; [exact Hin|assumption].
    - now rewrite (patch_not_official _ _ _ _ Ho). }
  destruct (String.eqb (method req) "DELETE"); [|exact Hv].
  destruct (delete_cases db s req) as [->|(l1 & i & l2 & Hl & ->)]; [exact Hv|].
  unfold statuses_valid in *. simpl. rewrite Hl in Hv.
  apply Forall_app in Hv as [H1 H2]. inversion H2; subst.
  apply Forall_app. now split.
Qed.

Lemma reachable_valid us db : reachable us db -> statuses_valid db.
Proof.
  induction 1 as [|db session env req _ IH].
  - constructor.
  - now apply handler_keeps_valid.
Qed.

(** C3, as the code has it.  In every database the handler can produce
    from an empty incident collection, each incident's status is one of
    [pending], [in_progress], [resolved], [rejected]: a creation that
    succeeds stores [pending]; a status update that asks for a status
    outside the four writes nothing, whoever asks, and is answered 400
    (a validation error) when the caller is an official. *)
Theorem status_always_valid us db session env req :
  reachable us db ->
  statuses_valid db /\
  statuses_valid (snd (handler db session env req)) /\
  (method req = "POST" -> code (fst (handler db session env req)) = 201 ->
   exists inc, incidents (snd (handler db session env req)) = incidents db ++ [inc] /\
               status inc = "pending") /\
  (method req = "PATCH" ->
   forall st, get_prop (body req) "status" = ret st -> includes validStatuses st = false ->
     snd (handler db session env req) = db /\
     (forall s, session = Some s -> userType s = "official" ->
        error_kind (fst (handler db session env req)) = Some ValidationError)).
Proof.
  intros Hr. pose proof (reachable_valid _ _ Hr) as Hv.
  split; [exact Hv|]. split; [now apply handler_keeps_valid|]. split.
  - intros Hm. destruct session as [s|]; [|simpl; discriminate].
    rewrite (handler_post _ _ _ _ Hm).
    destruct (post_cases db s env req) as [[_ H]|[Hc _]]; [|intros Hc'; contradiction].
    destruct H as (f & user & inc & _ & _ & _ & _ & Hst & _ & _ & _ & Hdb).
    intros _. exists inc. rewrite Hdb. now split.
  - intros Hm st Hst Hbad.
    destruct (get_prop_total _ _ "id" _ Hst) as [id Hid].
    destruct session as [s|]; [|split; [reflexivity|intros s [=]]].
    rewrite (handler_patch _ _ _ _ Hm).
    destruct (String.eqb (userType s) "official") eqn:Ho.
    + open_patch. rewrite Ho, Hid, Hst. simpl.
      destruct (negb (truthy id) || negb (truthy st)); simpl.
      * split; [reflexivity|]. intros; reflexivity.
      * rewrite Hbad. simpl. split; [reflexivity|]. intros; reflexivity.
    + rewrite (patch_not_official _ _ _ _ Ho). split; [reflexivity|].
      intros s' [= <-] Hu. apply String.eqb_neq in Ho. contradiction.
Qed.

(** ** Identifiers stay unique *)

Lemma handler_keeps_unique db session env req :
  ids_unique db -> ids_unique (snd (handler db session env req)).
Proof.
  intros Hu. open_handler. destruct session as [s|]; [|exact Hu].
  destruct (String.eqb (method req) "GET"); [now rewrite get_keeps_db|].
  destruct (String.eqb (method req) "POST").
  { destruct (post_cases db s env req) as [[_ H]|[_ ->]]; [|exact Hu].
    destruct H as (f & user & inc & _ & _ & Hfree & Hid & _ & _ & _ & _ & ->).
    unfold ids_unique in *. simpl. rewrite map_app. simpl.
    apply List.NoDup_app; [exact Hu|repeat constructor; intros []|].
    intros x Hx [<-|[]]. apply in_map_iff in Hx as (j & Hj & Hin).
    rewrite Hid in Hj. apply (proj1 (findOne_None _ _) Hfree j Hin Hj). }
  destruct (String.eqb (method req) "PATCH").
  { destruct (String.eqb (userType s) "official") eqn:Ho.
    - destruct (patch_cases db s env req Ho) as [[_ H]|[_ ->]]; [|exact Hu].
      destruct H as (id & st & oid & l1 & i & l2 & _ & _ & _ & _ & Hl & _ & _ & ->).
      unfold ids_unique in *. simpl. rewrite Hl in Hu.
      rewrite map_app in *. exact Hu.
    - now rewrite (patch_not_official _ _ _ _ Ho). }
  destruct (String.eqb (method req) "DELETE"); [|exact Hu].
  destruct (delete_cases db s req) as [->|(l1 & i & l2 & Hl & ->)]; [exact Hu|].
  unfold ids_unique in *. simpl. rewrite Hl in Hu.
  rewrite map_app in *. simpl in Hu. now apply NoDup_remove_1 in Hu.
Qed.

Lemma reachable_unique us db : reachable us db -> ids_unique db.
Proof.
  induction 1 as [|db session env req _ IH].
  - constructor.
  - now apply handler_keeps_unique.
Qed.


(** ** Listing: order, window and page count *)

Lemma insert_desc_perm i l : Permutation (insert_desc i l) (i :: l).
Proof.
  induction l as [|j l IH]; simpl; [reflexivity|].
  destruct (createdAt j <=? createdAt i); [reflexivity|].
  rewrite IH. apply perm_swap.
Qed.

Lemma sort_desc_perm l : Permutation (sort_desc l) l.
Proof.
  induction l as [|i l IH]; simpl; [reflexivity|].
  unfold sort_desc in *. simpl. rewrite insert_desc_perm. now constructor.
Qed.

Lemma insert_desc_hd i j l :
  newer_first j i -> HdRel newer_first j l -> HdRel newer_first j (insert_desc i l).
Proof.
  intros Hji Hl. destruct l as [|k l]; simpl; [now constructor|].
  destruct (createdAt k <=? createdAt i); constructor; [exact Hji|].
  now inversion Hl.
Qed.

Lemma insert_desc_sorted i l :
  Sorted newer_first l -> Sorted newer_first (insert_desc i l).
Proof.
  induction 1 as [|j l Hs IH Hhd]; simpl.
  - repeat constructor.
  - destruct (createdAt j <=? createdAt i) eqn:E.
    + constructor; [now constructor|]. constructor. unfold newer_first. lia.
    + constructor; [exact IH|]. apply insert_desc_hd; [|exact Hhd].
      unfold newer_first. lia.
Qed.

Lemma sort_desc_sorted l : Sorted newer_first (sort_desc l).
Proof.
  induction l as [|i l IH]; [constructor|].
  unfold sort_desc in *. simpl. now apply insert_desc_sorted.
Qed.

Lemma sort_desc_length l : length (sort_desc l) = length l.
Proof. apply Permutation_length, sort_desc_perm. Qed.

Lemma ceil_div_bounds a b :
  0 < b -> (ceil_div a b - 1) * b < a <= ceil_div a b * b.
Proof.
  intros Hb. unfold ceil_div.
  pose proof (Z.div_mod (- a) b ltac:(lia)) as Hd.
  pose proof (Z.mod_pos_bound (- a) b Hb) as Hm. nia.
Qed.

Lemma window_positive s n l :
  0 <= s -> 1 <= n ->
  window s n l = ret (take (Z.to_nat n) (drop (Z.to_nat s) l)).
Proof.
  intros Hs Hn. unfold window.
  destruct (s <? 0) eqn:E; [lia|]. destruct (n =? 0) eqn:E'; [lia|].
  now rewrite Z.abs_eq by lia.
Qed.

(** C6, as the code has it.  For a listing whose page and limit, after
    defaulting, are both at least 1, whose filter the store accepts, and
    whose numbers stay exact (page, limit, the offset
    [(page - 1) * limit] and the number of stored incidents at most
    2^53 - 1): the matching incidents are put newest first, the answer
    is 200 and holds the [limit] incidents that follow the first
    [(page - 1) * limit] of them (fewer when they run out), the count
    [total] of all matching incidents, the page as read, and
    [totalPages], the least number of pages of [limit] that hold [total]
    incidents; a page past [totalPages] gets an empty window, not an
    error. *)
Theorem listing_window db s env req p :
  method req = "GET" ->
  compile_query (build_query (query req !! "search")) = ret p ->
  1 <= query_int (query req) "page" 1 <= max_safe ->
  1 <= query_int (query req) "limit" 10 <= max_safe ->
  (query_int (query req) "page" 1 - 1) * query_int (query req) "limit" 10 <= max_safe ->
  Z.of_nat (length (incidents db)) <= max_safe ->
  let page := query_int (query req) "page" 1 in
  let limit := query_int (query req) "limit" 10 in
  let matching := sort_desc (List.filter p (incidents db)) in
  let shown := take (Z.to_nat limit) (drop (Z.to_nat ((page - 1) * limit)) matching) in
  let total := Z.of_nat (length (List.filter p (incidents db))) in
  exists totalPages,
    handler db (Some s) env req =
      (respond 200 (Listing (map view shown) total page totalPages), db) /\
    Sorted newer_first matching /\
    Permutation matching (List.filter p (incidents db)) /\
    Z.of_nat (length shown) <= limit /\
    total <= max_safe /\
    (totalPages - 1) * limit < total <= totalPages * limit /\
    (totalPages < page -> shown = []).
Proof.
  intros Hm Hq [Hp Hp'] [Hl Hl'] Hoff Hsize page limit matching shown total.
  exists (ceil_div total limit).
  split; [|split; [|split; [|split; [|split; [|split]]]]].
  - rewrite (handler_get _ _ _ _ Hm). open_get. rewrite Hq. simpl.
    fold page limit. rewrite window_positive by (subst page limit; nia). reflexivity.
  - apply sort_desc_sorted.
  - apply sort_desc_perm.
  - subst shown. rewrite length_take. lia.
  - subst total. pose proof (filter_length_le p (incidents db)). lia.
  - apply ceil_div_bounds. lia.
  - intros Hlt. subst shown.
    pose proof (ceil_div_bounds total limit ltac:(lia)) as Hb.
    rewrite drop_ge; [now rewrite take_nil|].
    subst matching. rewrite sort_desc_length. subst total. nia.
Qed.

(** ** Listing: defaults of page and limit *)

Lemma handle_get_same_reading db req req' :
  query_int (query req) "page" 1 = query_int (query req') "page" 1 ->
  query_int (query req) "limit" 10 = query_int (query req') "limit" 10 ->
  query req !! "search" = query req' !! "search" ->
  handle_get db req = handle_get db req'.
Proof. intros H1 H2 H3. open_get. now rewrite H1, H2, H3. Qed.

Lemma query_int_default q k d :
  q !! k ≫= parseInt = None \/ q !! k ≫= parseInt = Some 0 -> query_int q k d = d.
Proof. unfold query_int. intros [-> | ->]; reflexivity. Qed.

Lemma query_int_other q k k' v d :
  k <> k' -> query_int (<[k := v]> q) k' d = query_int q k' d.
Proof. intros Hne. unfold query_int. now rewrite lookup_insert_ne. Qed.

Lemma query_int_nonzero q k d : d <> 0 -> query_int q k d <> 0.
Proof.
  intros Hd. unfold query_int. destruct (q !! k ≫= parseInt) as [n|]; [|exact Hd].
  destruct (n =? 0) eqn:E; [exact Hd|]. now apply Z.eqb_neq.
Qed.

(** C9. A listing whose [page] is missing, is not a number or reads as
    0 is answered as the same listing with [page=1], and one whose
    [limit] is missing, is not a number or reads as 0 as the same
    listing with [limit=10]; the page and the limit the handler
    computes with are never 0. *)
Theorem zero_or_missing_defaults db s env req :
  method req = "GET" ->
  (query req !! "page" ≫= parseInt = None \/ query req !! "page" ≫= parseInt = Some 0 ->
   query_int (query req) "page" 1 = 1 /\
   handler db (Some s) env req =
   handler db (Some s) env (with_query req (<["page" := "1"]> (query req)))) /\
  (query req !! "limit" ≫= parseInt = None \/ query req !! "limit" ≫= parseInt = Some 0 ->
   query_int (query req) "limit" 10 = 10 /\
   handler db (Some s) env req =
   handler db (Some s) env (with_query req (<["limit" := "10"]> (query req)))) /\
  query_int (query req) "page" 1 <> 0 /\
  query_int (query req) "limit" 10 <> 0.
Proof.
  intros Hm. split; [|split; [|split]].
  - intros H. split; [now apply query_int_default|].
    rewrite (handler_get _ _ _ _ Hm), (handler_get _ _ _ (with_query _ _) Hm).
    f_equal. apply handle_get_same_reading; simpl.
    + rewrite (query_int_default _ _ _ H). unfold query_int.
      now rewrite lookup_insert_eq.
    + now rewrite query_int_other.
    + now rewrite lookup_insert_ne.
  - intros H. split; [now apply query_int_default|].
    rewrite (handler_get _ _ _ _ Hm), (handler_get _ _ _ (with_query _ _) Hm).
    f_equal. apply handle_get_same_reading; simpl.
    + now rewrite query_int_other.
    + rewrite (query_int_default _ _ _ H). unfold query_int.
      now rewrite lookup_insert_eq.
    + now rewrite lookup_insert_ne.
  - now apply query_int_nonzero.
  - now apply query_int_nonzero.
Qed.

(** ** The search filter *)

Lemma plain_term_filter t :
  literal_on_plain regex_i -> String.eqb t "" = false -> no_meta t = true ->
  exists p, compile_query (build_query (Some t)) = ret p /\
            forall i, p i = true <-> occurs_in_record t i.
Proof.
  intros Hlit Hne Hplain. destruct (Hlit t Hplain) as (m & Hm & Hspec).
  unfold build_query. rewrite Hne. simpl. rewrite Hm. simpl.
  eexists. split; [reflexivity|]. intros i. simpl. unfold occurs_in_record.
  rewrite !orb_true_iff, !Hspec. intuition discriminate.
Qed.

(** C4, as the code has it.  With no search term (or an empty one) the
    filter holds of every incident.  With a search term free of pattern
    metacharacters, and a pattern operator that reads such a term as
    itself, the filter holds of an incident exactly when the term occurs
    as a substring, letter case apart, in its title, its description, its
    address or its type. *)
Theorem search_filter (search : option string) :
  (search = None \/ search = Some "" ->
   exists p, compile_query (build_query search) = ret p /\ forall i, p i = true) /\
  (forall t, search = Some t -> String.eqb t "" = false ->
     literal_on_plain regex_i -> no_meta t = true ->
     exists p, compile_query (build_query search) = ret p /\
               forall i, p i = true <-> occurs_in_record t i).
Proof.
  split.
  - intros [-> | ->]; simpl; eexists; split; reflexivity.
  - intros t -> Hne Hlit Hplain. now apply plain_term_filter.
Qed.

(** C5, as the code has it.  The search term is handed to the pattern
    operator as it is, nothing escaped.  When the store rejects it as a
    pattern the listing is answered 500; otherwise the filter holds of
    an incident exactly when the term, read as a pattern, matches one of
    title, address, type, description.  Only for a term free of
    metacharacters is that the same as the term occurring in one of
    them as a substring, letter case apart. *)
Theorem search_term_is_pattern db s env req t :
  method req = "GET" ->
  query req !! "search" = Some t ->
  String.eqb t "" = false ->
  (regex_i t = None ->
   handler db (Some s) env req =
     (respond 500 (Failure "Error fetching incidents" MongoServerError), db)) /\
  (forall m, regex_i t = Some m ->
     exists p, compile_query (build_query (query req !! "search")) = ret p /\
       forall i, p i = m (title i) || m (address (location i)) || m (type i)
                       || m (description i)) /\
  (literal_on_plain regex_i -> no_meta t = true ->
     exists p, compile_query (build_query (query req !! "search")) = ret p /\
       forall i, p i = true <-> occurs_in_record t i).
Proof.
  intros Hm Hq Hne. rewrite Hq. split; [|split].
  - intros Hbad. rewrite (handler_get _ _ _ _ Hm). open_get. rewrite Hq.
    unfold build_query. rewrite Hne. simpl. now rewrite Hbad.
  - intros m Hok. unfold build_query. rewrite Hne. simpl. rewrite Hok. simpl.
    eexists. split; [reflexivity|]. intros i. simpl.
    now rewrite orb_false_r, !orb_assoc.
  - intros Hlit Hplain. now apply plain_term_filter.
Qed.

End Properties.

(** ** The reference instances *)

Lemma prefix_ci_spec p s :
  prefix_ci p s = true <-> exists post, map lower s = map lower p ++ post.
Proof.
  revert s. induction p as [|c p IH]; intros s; simpl.
  - split; [intros _; now exists (map lower s)|reflexivity].
  - destruct s as [|d s]; simpl.
    + split; [discriminate|intros [post H]; discriminate].
    + rewrite andb_true_iff, IH. unfold same_letter. rewrite Ascii.eqb_eq. split.
      * intros [Hc [post Hs]]. exists post. now rewrite Hc, Hs.
      * intros [post [= Hc Hs]]. split; [now symmetry|now exists post].
Qed.

Lemma some_suffix_prefix_spec p s :
  some_suffix (prefix_ci p) s = true <->
  exists pre post, map lower s = pre ++ map lower p ++ post.
Proof.
  induction s as [|d s IH]; simpl.
  - rewrite orb_false_r, prefix_ci_spec. split.
    + intros [post H]. now exists [], post.
    + intros (pre & post & H). destruct pre; [now exists post|discriminate].
  - rewrite orb_true_iff, prefix_ci_spec, IH. split.
    + intros [[post H]|(pre & post & H)].
      * now exists [], post.
      * exists (lower d :: pre), post. simpl. now rewrite H.
    + intros (pre & post & H). destruct pre as [|x pre]; simpl in H.
      * left. now exists post.
      * right. injection H as _ H. now exists pre, post.
Qed.

Lemma occurs_cib_spec term text : occurs_cib term text = true <-> occurs_ci term text.
Proof. unfold occurs_cib, occurs_ci, fold_case. apply some_suffix_prefix_spec. Qed.

Lemma ends_literal text p i :
  ends text (cat_of (map Lit p)) i =
  if prefix_ci p (drop i text) then [(i + length p)%nat] else [].
Proof.
  revert i. induction p as [|c p IH]; intros i; simpl.
  - now rewrite Nat.add_0_r.
  - destruct (text !! i) as [d|] eqn:Hi.
    + rewrite (drop_S _ _ _ Hi). destruct (same_letter c d); simpl; [|reflexivity].
      now rewrite app_nil_r, IH, Nat.add_succ_r.
    + apply lookup_ge_None in Hi. now rewrite drop_ge.
Qed.

Lemma existsb_shift (f : nat -> bool) n :
  existsb f (seq 1 n) = existsb (fun i => f (S i)) (seq 0 n).
Proof.
  rewrite <- seq_shift. induction (seq 0 n) as [|k l IH]; simpl; [reflexivity|].
  now rewrite IH.
Qed.

Lemma existsb_seq_S (f : nat -> bool) n :
  existsb f (seq 0 (S n)) = f 0%nat || existsb (fun i => f (S i)) (seq 0 n).
Proof. rewrite <- cons_seq. cbn [existsb]. now rewrite existsb_shift. Qed.

Lemma search_suffixes (g : list ascii -> bool) s :
  existsb (fun i => g (drop i s)) (seq 0 (S (length s))) = some_suffix g s.
Proof.
  induction s as [|d s IH]; [reflexivity|].
  cbn [length]. rewrite existsb_seq_S. cbn [some_suffix drop].
  now rewrite <- IH.
Qed.

Lemma search_literal p text :
  search (cat_of (map Lit p)) text = some_suffix (prefix_ci p) text.
Proof.
  unfold search. rewrite <- search_suffixes.
  induction (seq 0 (S (length text))) as [|i l IH]; simpl; [reflexivity|].
  rewrite IH, ends_literal. now destruct (prefix_ci p (drop i text)).
Qed.

Lemma not_meta_eqb c d :
  is_meta c = false -> In d (list_ascii_of_string "\^$.[]|()?*+{}") -> Ascii.eqb c d = false.
Proof.
  unfold is_meta. intros H Hin. destruct (Ascii.eqb c d) eqn:E; [|reflexivity].
  rewrite <- H. symmetry. apply existsb_exists. now exists d.
Qed.

Ltac plain_eqb H := apply (not_meta_eqb _ _ H); simpl; auto 20.

Lemma quantify_plain a s :
  forallb (fun c => negb (is_meta c)) s = true -> quantify a s = Some (a, s).
Proof.
  destruct s as [|q s]; [reflexivity|]. simpl. intros H.
  apply andb_true_iff in H as [H _]. apply negb_true_iff in H.
  unfold is_quantifier.
  assert (H1 : Ascii.eqb q "*" = false) by plain_eqb H.
  assert (H2 : Ascii.eqb q "+" = false) by plain_eqb H.
  assert (H3 : Ascii.eqb q "?" = false) by plain_eqb H.
  now rewrite H1, H2, H3.
Qed.

Lemma parse_plain s : forall fuel items,
  forallb (fun c => negb (is_meta c)) s = true ->
  (length s < fuel)%nat ->
  parse fuel [] items s = Some (cat_of (rev (rev (map Lit s) ++ items)), []).
Proof.
  induction s as [|c s IH]; intros fuel items Hs Hfuel.
  - destruct fuel; [simpl in Hfuel; lia|]. reflexivity.
  - destruct fuel as [|fuel]; [simpl in Hfuel; lia|].
    simpl in Hs. apply andb_true_iff in Hs as [Hc Hs]. apply negb_true_iff in Hc.
    assert (H1 : Ascii.eqb c ")" = false) by plain_eqb Hc.
    assert (H2 : Ascii.eqb c "|" = false) by plain_eqb Hc.
    assert (H3 : Ascii.eqb c "^" = false) by plain_eqb Hc.
    assert (H4 : Ascii.eqb c "$" = false) by plain_eqb Hc.
    assert (H5 : Ascii.eqb c "(" = false) by plain_eqb Hc.
    assert (H6 : Ascii.eqb c "." = false) by plain_eqb Hc.
    assert (H7 : Ascii.eqb c "\" = false) by plain_eqb Hc.
    cbn [parse]. rewrite H1, H2, H3, H4, H5. unfold read_atom.
    rewrite H6, H7, Hc. cbn [mbind option_bind]. rewrite (quantify_plain _ _ Hs).
    rewrite IH; [|exact Hs|simpl in Hfuel; lia].
    simpl. now rewrite <- app_assoc.
Qed.

Lemma parse_pattern_plain p :
  no_meta p = true -> parse_pattern p = Some (cat_of (map Lit (list_ascii_of_string p))).
Proof.
  intros Hp. unfold parse_pattern. rewrite parse_plain; [|exact Hp|lia].
  now rewrite app_nil_r, rev_involutive.
Qed.

(** The reference pattern operator reads a term without metacharacters
    as the term itself. *)
Lemma regex_fragment_literal : literal_on_plain regex_fragment.
Proof.
  intros p Hp. unfold regex_fragment. rewrite (parse_pattern_plain _ Hp).
  eexists. split; [reflexivity|]. intros text. cbv beta.
  rewrite search_literal. apply occurs_cib_spec.
Qed.

(** ** Concrete runs *)

Lemma status_update_only_official_witness :
  handler ObjectId_hex regex_fragment db0 (Some bob) env0 (patch_request resolve_collision) =
    (respond 403 (Message "Not authorized to update incident status"), db0) /\
  handler ObjectId_hex regex_fragment db0 (Some alice) env0 (patch_request resolve_collision) =
    (respond 403 (Message "Not authorized to update incident status"), db0).
Proof.
  split.
  - apply (status_update_only_official ObjectId_hex regex_fragment db0 bob env0
             (patch_request resolve_collision)); reflexivity.
  - apply (status_update_only_official ObjectId_hex regex_fragment db0 alice env0
             (patch_request resolve_collision)); reflexivity.
Defined.

Lemma authorization_precedes_validation_witness :
  handler ObjectId_hex regex_fragment db0 (Some bob) env0 (patch_request JUndefined) =
    (respond 403 (Message "Not authorized to update incident status"), db0) /\
  handler ObjectId_hex regex_fragment db0 (Some carol) env0 (patch_request archive_collision) =
    (respond 400 (Message "Invalid status value"), db0).
Proof.
  split.
  - apply (authorization_precedes_validation ObjectId_hex regex_fragment db0 bob env0
             (patch_request resolve_collision)); reflexivity.
  - destruct (authorization_precedes_validation ObjectId_hex regex_fragment db0 carol env0
                (patch_request archive_collision) eq_refl) as (_ & _ & H).
    apply (H eq_refl (JStr collision_id) (JStr "archived")); reflexivity.
Defined.

Lemma status_update_frame_witness :
  exists i',
    incidents (snd (handler ObjectId_hex regex_fragment db0 (Some carol) env0
                      (patch_request resolve_collision))) = [i'] /\
    status i' = "resolved" /\ updatedAt i' = 2000 /\
    updatedBy i' = Some {| updater_email := "carol@example.org"; updater_name := "Carol" |} /\
    title i' = "Bus collision" /\ reportedBy i' = reportedBy collision /\
    createdAt i' = 1000.
Proof.
  destruct (status_update_frame ObjectId_hex regex_fragment db0 carol env0
              (patch_request resolve_collision) eq_refl eq_refl)
    as (st & l1 & i & i' & l2 & Hst & Hdb & Hdb' & _ & _ & _ & H1 & H2 & H3 & _ & H4 & _ & _
        & _ & _ & _ & H5 & _ & H6).
  injection Hst as <-.
  destruct l1 as [|x l1]; [|destruct l1; discriminate].
  injection Hdb as <- <-.
  exists i'. rewrite Hdb'. repeat split; assumption.
Defined.

Lemma create_snapshot_witness :
  code (fst (handler ObjectId_hex regex_fragment db_empty (Some alice) env0
               (post_request bus_form))) = 201 /\
  exists inc,
    incidents db_reported = [inc] /\ status inc = "pending" /\ comments inc = [] /\
    reportedBy inc = {| reporter_id := "64b000000000000000000001";
                        reporter_name := "Alice";
                        reporter_email := "alice@example.org" |}.
Proof.
  destruct (create_snapshot ObjectId_hex regex_fragment db_empty alice env0
              (post_request bus_form) eq_refl) as [Hprops Hok].
  assert (Hc : code (fst (handler ObjectId_hex regex_fragment db_empty (Some alice) env0
                            (post_request bus_form))) = 201).
  { apply (Hok {| fields := list_to_map bus_form; photo := None |} alice_user);
      vm_compute; reflexivity. }
  split; [exact Hc|].
  destruct (Hprops Hc) as (user & inc & Hu & _ & Hdb & _ & Hst & Hcm & Hrb).
  injection Hu as <-.
  exists inc. unfold db_reported. rewrite Hdb. repeat split; assumption.
Defined.

Lemma delete_guard_witness :
  handler ObjectId_hex regex_fragment db0 (Some alice) env0 (delete_request collision_id) =
    (respond 200 (Message "Incident deleted successfully"),
     {| incidents := []; users := [alice_user] |}) /\
  handler ObjectId_hex regex_fragment db0 (Some bob) env0 (delete_request collision_id) =
    (respond 403 (Message "Not authorized to delete this incident"), db0) /\
  handler ObjectId_hex regex_fragment db0 (Some bob) env0
    (delete_request "507f1f77bcf86cd799439099") =
    (respond 404 (Message "Incident not found"), db0).
Proof.
  split; [|split].
  - destruct (delete_guard ObjectId_hex regex_fragment db0 alice env0
                (delete_request collision_id) ltac:(reflexivity)) as [_ H].
    destruct (H collision_id ltac:(vm_compute; reflexivity) ltac:(reflexivity)) as [_ H'].
    destruct (H' collision_id ltac:(reflexivity)) as [_ H''].
    destruct (H'' collision eq_refl) as [_ Hok].
    destruct (Hok (or_introl eq_refl)) as (l1 & l2 & Hl & _ & Hr & _).
    destruct l1 as [|x l1]; [|destruct l1; discriminate].
    injection Hl as <-. exact Hr.
  - destruct (delete_guard ObjectId_hex regex_fragment db0 bob env0
                (delete_request collision_id) ltac:(reflexivity)) as [_ H].
    destruct (H collision_id ltac:(vm_compute; reflexivity) ltac:(reflexivity)) as [_ H'].
    destruct (H' collision_id ltac:(reflexivity)) as [_ H''].
    apply (H'' collision); [reflexivity|]. split; discriminate.
  - destruct (delete_guard ObjectId_hex regex_fragment db0 bob env0
                (delete_request "507f1f77bcf86cd799439099") ltac:(reflexivity)) as [_ H].
    destruct (H "507f1f77bcf86cd799439099" ltac:(vm_compute; reflexivity) ltac:(reflexivity))
      as [_ H'].
    apply (H' "507f1f77bcf86cd799439099"); reflexivity.
Defined.

Lemma status_always_valid_witness :
  statuses_valid db_reported /\
  snd (handler ObjectId_hex regex_fragment db_reported (Some carol) env0
         (patch_request archive_collision)) = db_reported /\
  error_kind (fst (handler ObjectId_hex regex_fragment db_reported (Some carol) env0
                     (patch_request archive_collision))) = Some ValidationError.
Proof.
  destruct (status_always_valid ObjectId_hex regex_fragment [alice_user] db_reported
              (Some carol) env0 (patch_request archive_collision)
              (reach_step _ _ _ _ (Some alice) env0 (post_request bus_form)
                 (reach_init _ _ _)))
    as (Hv & _ & _ & Hpatch).
  split; [exact Hv|].
  destruct (Hpatch eq_refl (JStr "archived") eq_refl eq_refl) as [Hdb Hkind].
  split; [exact Hdb|]. now apply (Hkind carol).
Defined.

Lemma listing_window_witness :
  exists totalPages,
    handler ObjectId_hex regex_fragment db0 (Some alice) env0
      (get_request [("page", "3"); ("limit", "10")]) =
    (respond 200 (Listing [] 1 3 totalPages), db0) /\ totalPages = 1.
Proof.
  assert (Ep : query_int (query (get_request [("page", "3"); ("limit", "10")])) "page" 1 = 3)
    by (vm_compute; reflexivity).
  assert (El : query_int (query (get_request [("page", "3"); ("limit", "10")])) "limit" 10 = 10)
    by (vm_compute; reflexivity).
  destruct (listing_window ObjectId_hex regex_fragment db0 alice env0
              (get_request [("page", "3"); ("limit", "10")]) (fun _ => true)
              ltac:(reflexivity) ltac:(vm_compute; reflexivity)
              ltac:(rewrite Ep; unfold max_safe; lia)
              ltac:(rewrite El; unfold max_safe; lia)
              ltac:(rewrite Ep, El; unfold max_safe; lia)
              ltac:(simpl; unfold max_safe; lia))
    as (tp & H & _ & _ & _ & _ & Hb & _).
  exists tp. split; [exact H|].
  rewrite El in Hb. simpl in Hb. lia.
Defined.

Lemma zero_or_missing_defaults_witness :
  handler ObjectId_hex regex_fragment db0 (Some alice) env0
    (get_request [("page", "0"); ("limit", "ten")]) =
  handler ObjectId_hex regex_fragment db0 (Some alice) env0
    (get_request [("page", "1"); ("limit", "ten")]).
Proof.
  destruct (zero_or_missing_defaults ObjectId_hex regex_fragment db0 alice env0
              (get_request [("page", "0"); ("limit", "ten")]) eq_refl) as [H _].
  destruct (H ltac:(right; vm_compute; reflexivity)) as [_ ->].
  vm_compute. reflexivity.
Defined.

Lemma search_filter_witness :
  exists p, compile_query regex_fragment (build_query (Some "COLLISION")) = ret p /\
            p collision = true.
Proof.
  destruct (search_filter regex_fragment (Some "COLLISION")) as [_ H].
  destruct (H "COLLISION" eq_refl eq_refl regex_fragment_literal eq_refl) as (p & Hp & Hspec).
  exists p. split; [exact Hp|]. apply Hspec. left. apply occurs_cib_spec. reflexivity.
Defined.

Lemma search_term_is_pattern_witness :
  handler ObjectId_hex regex_fragment db0 (Some alice) env0 (get_request [("search", "(")]) =
    (respond 500 (Failure "Error fetching incidents" MongoServerError), db0).
Proof.
  apply (search_term_is_pattern ObjectId_hex regex_fragment db0 alice env0
           (get_request [("search", "(")]) "("); vm_compute; reflexivity.
Defined.

(** ** Where the code departs from the specification *)

(** C2 as stated fails: no incident has the identifier [abc], yet the
    deletion is answered 500, not 404: the driver refuses the text as an
    identifier before any lookup. *)
Lemma delete_malformed_id_not_404 :
  query (delete_request "abc") !! "id" = Some "abc" /\
  (forall i, In i (incidents db0) -> _id i <> "abc") /\
  handler ObjectId_hex regex_fragment db0 (Some alice) env0 (delete_request "abc") =
    (respond 500 (Failure "Error deleting incident" BSONError), db0) /\
  error_kind (fst (handler ObjectId_hex regex_fragment db0 (Some alice) env0
                     (delete_request "abc"))) <> Some NotFound.
Proof.
  split; [vm_compute; reflexivity|]. split; [|split].
  - intros i [<-|[]]. discriminate.
  - vm_compute. reflexivity.
  - vm_compute. discriminate.
Qed.

(** C3 as stated fails: a status update that asks for [archived], a
    status outside the four, by a caller who is not an official is
    answered 403 Forbidden, not a validation error. *)
Lemma invalid_status_by_user_is_forbidden :
  get_prop (body (patch_request archive_collision)) "status" = ret (JStr "archived") /\
  includes validStatuses (JStr "archived") = false /\
  handler ObjectId_hex regex_fragment db0 (Some alice) env0 (patch_request archive_collision) =
    (respond 403 (Message "Not authorized to update incident status"), db0) /\
  error_kind (fst (handler ObjectId_hex regex_fragment db0 (Some alice) env0
                     (patch_request archive_collision))) <> Some ValidationError.
Proof.
  split; [reflexivity|]. split; [reflexivity|]. split.
  - vm_compute. reflexivity.
  - vm_compute. discriminate.
Qed.

Lemma not_occurs_in_record term i :
  occurs_cib term (title i) = false -> occurs_cib term (description i) = false ->
  occurs_cib term (address (location i)) = false -> occurs_cib term (type i) = false ->
  ~ occurs_in_record term i.
Proof.
  intros H1 H2 H3 H4 [H|[H|[H|H]]]; apply occurs_cib_spec in H; congruence.
Qed.

(** C4 as stated fails: a listing searched for [bus|train] returns the
    collision report, in none of whose four fields that text occurs. *)
Lemma alternation_term_matches_without_occurring :
  handler ObjectId_hex regex_fragment db0 (Some alice) env0
    (get_request [("search", "bus|train")]) =
    (respond 200 (Listing [view collision] 1 1 1), db0) /\
  ~ occurs_in_record "bus|train" collision.
Proof.
  split; [vm_compute; reflexivity|].
  apply not_occurs_in_record; vm_compute; reflexivity.
Qed.

(** C5 as stated fails: a listing searched for the one character [.]
    returns the collision report, which holds no full stop in any
    searched field: the term was read as the pattern for any
    character. *)
Lemma dot_term_read_as_pattern :
  handler ObjectId_hex regex_fragment db0 (Some alice) env0 (get_request [("search", ".")]) =
    (respond 200 (Listing [view collision] 1 1 1), db0) /\
  ~ occurs_in_record "." collision.
Proof.
  split; [vm_compute; reflexivity|].
  apply not_occurs_in_record; vm_compute; reflexivity.
Qed.

(** C6 as stated fails: a listing asked with [page=-1] computes a
    negative offset, which the store refuses; the answer is 500, with no
    window, total or page count. *)
Lemma negative_page_is_refused :
  query_int (query (get_request [("page", "-1")])) "page" 1 = -1 /\
  (query_int (query (get_request [("page", "-1")])) "page" 1 - 1)
    * query_int (query (get_request [("page", "-1")])) "limit" 10 = -20 /\
  handler ObjectId_hex regex_fragment db0 (Some alice) env0 (get_request [("page", "-1")]) =
    (respond 500 (Failure "Error fetching incidents" MongoServerError), db0).
Proof. repeat split; vm_compute; reflexivity. Qed.

(** * Further properties of the route *)

(** ** Lookups in a collection put together *)

Lemma findOne_app oid l1 l2 :
  findOne oid (l1 ++ l2) =
  match findOne oid l1 with
  | Some i => Some i
  | None => findOne oid l2
  end.
Proof.
  unfold findOne. induction l1 as [|j l1 IH]; simpl; [reflexivity|].
  now destruct (has_id oid j).
Qed.

Lemma findOne_here oid i l : _id i = oid -> findOne oid (i :: l) = Some i.
Proof. intros H. unfold findOne, has_id. simpl. now rewrite H, String.eqb_refl. Qed.

Lemma findOne_skip oid i l : _id i <> oid -> findOne oid (i :: l) = findOne oid l.
Proof.
  intros H. unfold findOne, has_id. simpl.
  apply String.eqb_neq in H. now rewrite H.
Qed.

Lemma unique_found l i :
  List.NoDup (map _id l) -> In i l -> findOne (_id i) l = Some i.
Proof.
  induction l as [|j l IH]; [intros _ []|].
  intros Hu [->|Hin].
  - now apply findOne_here.
  - cbn [map] in Hu. inversion Hu as [|x xs Hnot Hrest]; subst.
    rewrite findOne_skip; [now apply IH|].
    intros Heq. apply Hnot. rewrite Heq. now apply in_map.
Qed.

Section Outcomes.

Variable ObjectId_new : JsVal -> option ObjectId.
Variable regex_i : string -> option (string -> bool).

Local Abbreviation handler := (handler ObjectId_new regex_i).
Local Abbreviation handle_get := (handle_get regex_i).
Local Abbreviation handle_patch := (handle_patch ObjectId_new).
Local Abbreviation handle_delete := (handle_delete ObjectId_new).
Local Abbreviation compile_query := (compile_query regex_i).
Local Abbreviation reachable := (reachable ObjectId_new regex_i).

(** ** Which calls write *)

(** The branch of a deletion, with the answer. *)
Lemma delete_outcomes db s req :
  let r := catch "Error deleting incident" db (handle_delete db s req) in
  (code (fst r) <> 200 /\ snd r = db) \/
  (code (fst r) = 200 /\
   exists oid l1 i l2,
     incidents db = l1 ++ i :: l2 /\ findOne oid l1 = None /\ _id i = oid /\
     snd r = {| incidents := l1 ++ l2; users := users db |}).
Proof.
  intros r. subst r. open_delete.
  destruct (negb (present (query req !! "id"))); simpl;
    [left; split; [discriminate|reflexivity]|].
  unfold new_ObjectId.
  destruct (ObjectId_new _) as [oid|]; simpl; [|left; split; [discriminate|reflexivity]].
  destruct (findOne oid (incidents db)) as [i|] eqn:Hf; simpl;
    [|left; split; [discriminate|reflexivity]].
  match goal with |- context [if ?c then _ else _] => destruct c end; simpl;
    [left; split; [discriminate|reflexivity]|].
  destruct (findOne_split _ _ _ Hf) as (l1 & l2 & Hl & Hn & Hi).
  right. split; [reflexivity|]. exists oid, l1, i, l2. repeat split; auto.
  now rewrite Hl, (deleteOne_split _ _ _ _ Hn Hi).
Qed.

(** X1. Whatever the request, the users are left as they were, and the
    incidents are left as they were unless the call is a creation
    answered 201, a status update answered 200 or a deletion answered
    200: a listing, and every call answered with an error (401, 400,
    403, 404, 405, 500), writes nothing. *)
Theorem writes_only_on_success db session env req :
  users (snd (handler db session env req)) = users db /\
  (snd (handler db session env req) = db \/
   (method req = "POST" /\ code (fst (handler db session env req)) = 201) \/
   (method req = "PATCH" /\ code (fst (handler db session env req)) = 200) \/
   (method req = "DELETE" /\ code (fst (handler db session env req)) = 200)).
Proof.
  open_handler. destruct session as [s|]; [|split; [reflexivity|now left]].
  destruct (String.eqb (method req) "GET") eqn:Eg.
  { rewrite get_keeps_db. split; [reflexivity|now left]. }
  destruct (String.eqb (method req) "POST") eqn:Ep.
  { apply String.eqb_eq in Ep.
    destruct (post_cases db s env req) as [[Hc H]|[_ Hdb]].
    - destruct H as (f & user & inc & _ & _ & _ & _ & _ & _ & _ & _ & Hdb).
      rewrite Hdb. split; [reflexivity|]. right. left. now split.
    - rewrite Hdb. split; [reflexivity|now left]. }
  destruct (String.eqb (method req) "PATCH") eqn:Ea.
  { apply String.eqb_eq in Ea.
    destruct (String.eqb (userType s) "official") eqn:Ho.
    - destruct (patch_cases ObjectId_new db s env req Ho) as [[Hc H]|[_ Hdb]].
      + destruct H as (id & st & oid & l1 & i & l2 & _ & _ & _ & _ & _ & _ & _ & Hdb).
        rewrite Hdb. split; [reflexivity|]. right. right. left. now split.
      + rewrite Hdb. split; [reflexivity|now left].
    - rewrite (patch_not_official ObjectId_new _ _ _ _ Ho). split; [reflexivity|now left]. }
  destruct (String.eqb (method req) "DELETE") eqn:Ed; [|split; [reflexivity|now left]].
  apply String.eqb_eq in Ed.
  destruct (delete_outcomes db s req) as [[_ Hdb]|[Hc H]].
  - rewrite Hdb. split; [reflexivity|now left].
  - destruct H as (oid & l1 & i & l2 & _ & _ & _ & Hdb).
    rewrite Hdb. split; [reflexivity|]. right. right. right. now split.
Qed.

(** ** Identifiers and what stays of an incident *)

(** X2. In every database the handler can produce from an empty
    incident collection, each stored incident is the one a lookup by its
    identifier returns: no two incidents share an identifier. *)
Theorem stored_incident_found us db i :
  reachable us db -> In i (incidents db) -> findOne (_id i) (incidents db) = Some i.
Proof.
  intros Hr Hin. apply unique_found; [|exact Hin].
  exact (reachable_unique ObjectId_new regex_i us db Hr).
Qed.

(** X3. No call changes what was reported: an incident that is found
    under an identifier before and after a call has the same
    [reportedBy], [createdAt], title, location, type, severity,
    description, photo and comments; a call can only change its status,
    [updatedAt] and [updatedBy], or remove it. *)
Theorem report_is_immutable db session env req oid i i' :
  ids_unique db ->
  findOne oid (incidents db) = Some i ->
  findOne oid (incidents (snd (handler db session env req))) = Some i' ->
  _id i' = _id i /\ reportedBy i' = reportedBy i /\ createdAt i' = createdAt i /\
  title i' = title i /\ location i' = location i /\ type i' = type i /\
  severity i' = severity i /\ description i' = description i /\
  photoUrl i' = photoUrl i /\ comments i' = comments i.
Proof.
  intros Hu Hf.
  assert (Hsame : forall j, Some i = Some j ->
            _id j = _id i /\ reportedBy j = reportedBy i /\ createdAt j = createdAt i /\
            title j = title i /\ location j = location i /\ type j = type i /\
            severity j = severity i /\ description j = description i /\
            photoUrl j = photoUrl i /\ comments j = comments i).
  { intros j [= <-]. repeat split. }
  open_handler. destruct session as [s|]; [|cbn [snd]; rewrite Hf; apply Hsame].
  destruct (String.eqb (method req) "GET").
  { rewrite get_keeps_db, Hf. apply Hsame. }
  destruct (String.eqb (method req) "POST").
  { destruct (post_cases db s env req) as [[_ H]|[_ ->]]; [|cbn [snd]; rewrite Hf; apply Hsame].
    destruct H as (f & user & inc & _ & _ & _ & _ & _ & _ & _ & _ & ->).
    simpl. rewrite findOne_app, Hf. apply Hsame. }
  destruct (String.eqb (method req) "PATCH").
  { destruct (String.eqb (userType s) "official") eqn:Ho.
    - destruct (patch_cases ObjectId_new db s env req Ho) as [[_ H]|[_ ->]];
        [|cbn [snd]; rewrite Hf; apply Hsame].
      destruct H as (id & st & o & l1 & j & l2 & _ & _ & _ & _ & Hl & Hn & Hj & ->).
      simpl. rewrite Hl in Hf. rewrite findOne_app in *.
      destruct (findOne oid l1) as [k|]; [cbn [snd]; rewrite Hf; apply Hsame|].
      destruct (String.eqb (_id j) oid) eqn:E.
      + apply String.eqb_eq in E. rewrite findOne_here in Hf by exact E.
        rewrite findOne_here by exact E. injection Hf as <-.
        intros [= <-]. repeat split.
      + apply String.eqb_neq in E. rewrite findOne_skip in Hf by exact E.
        rewrite findOne_skip by exact E. rewrite Hf. apply Hsame.
    - rewrite (patch_not_official ObjectId_new _ _ _ _ Ho). cbn [snd catch ret]. rewrite Hf. apply Hsame. }
  destruct (String.eqb (method req) "DELETE"); [|cbn [snd]; rewrite Hf; apply Hsame].
  destruct (delete_outcomes db s req) as [[_ ->]|[_ H]]; [cbn [snd]; rewrite Hf; apply Hsame|].
  destruct H as (o & l1 & j & l2 & Hl & Hn & Hj & ->).
  simpl. unfold ids_unique in Hu. rewrite Hl in Hf, Hu. rewrite findOne_app in *.
  destruct (findOne oid l1) as [k|] eqn:E1; [cbn [snd]; rewrite Hf; apply Hsame|].
  destruct (String.eqb (_id j) oid) eqn:E.
  - apply String.eqb_eq in E.
    pose proof (unique_gone _ _ _ _ Hu E) as Hgone.
    rewrite findOne_app, E1 in Hgone. rewrite Hgone. discriminate.
  - apply String.eqb_neq in E. rewrite findOne_skip in Hf by exact E.
    rewrite Hf. apply Hsame.
Qed.

(** ** Creation: rejections, and what is stored *)

Lemma required_present_false f :
  required_present f = false ->
  negb (present (fields f !! "title")) || negb (present (fields f !! "location"))
  || negb (present (fields f !! "type")) || negb (present (fields f !! "severity")) = true.
Proof.
  unfold required_present.
  destruct (present (fields f !! "title")), (present (fields f !! "location")),
    (present (fields f !! "type")), (present (fields f !! "severity")); simpl; congruence.
Qed.

Lemma required_present_true f :
  required_present f = true ->
  negb (present (fields f !! "title")) || negb (present (fields f !! "location"))
  || negb (present (fields f !! "type")) || negb (present (fields f !! "severity")) = false.
Proof.
  unfold required_present.
  destruct (present (fields f !! "title")), (present (fields f !! "location")),
    (present (fields f !! "type")), (present (fields f !! "severity")); simpl; congruence.
Qed.

(** X4. A creation is refused, and stores nothing, in this order: when
    the form cannot be parsed, with 500; when one of title, location,
    type, severity is not in the form at all, with 400, whether or not
    the caller is a known user; when the four are filled in and the
    caller's email has no user record, with 404; when the identifier to
    assign is already taken, with 500.  Description and photo are never
    asked for. *)
Theorem create_rejections db s env req :
  method req = "POST" ->
  (forall e, form req = throw e ->
     handler db (Some s) env req =
       (respond 500 (Failure "Could not create incident" e), db)) /\
  (forall f, form req = ret f ->
     (fields f !! "title" = None \/ fields f !! "location" = None \/
      fields f !! "type" = None \/ fields f !! "severity" = None ->
      error_kind (fst (handler db (Some s) env req)) = Some ValidationError /\
      snd (handler db (Some s) env req) = db) /\
     (required_present f = true -> findUser (email s) (users db) = None ->
      handler db (Some s) env req = (respond 404 (Message "User not found"), db)) /\
     (required_present f = true ->
      forall user taken, findUser (email s) (users db) = Some user ->
        findOne (insertedId env) (incidents db) = Some taken ->
        handler db (Some s) env req =
          (respond 500 (Failure "Could not create incident" MongoServerError), db))).
Proof.
  intros Hm. rewrite (handler_post ObjectId_new regex_i _ _ _ _ Hm). open_post. split.
  - intros e ->. reflexivity.
  - intros f ->. simpl. split; [|split].
    + intros H.
      assert (Hreq : required_present f = false).
      { unfold required_present.
        destruct H as [-> | [-> | [-> | ->]]]; simpl;
          rewrite ?andb_false_r; reflexivity. }
      now rewrite (required_present_false _ Hreq).
    + intros H Hu. now rewrite (required_present_true _ H), Hu.
    + intros H user taken Hu Ht. rewrite (required_present_true _ H), Hu.
      unfold insertOne. simpl. now rewrite Ht.
Qed.

(** X5. A creation answered 201 stores the incident it returns: a
    lookup by the assigned identifier finds it, with title, address,
    type and severity as sent, an empty description when none was sent,
    a photo path under [/uploads/] made of the base name of the uploaded
    file, and the two clock readings as [createdAt] and [updatedAt];
    every incident found before is found unchanged after. *)
Theorem created_is_stored db s env req :
  method req = "POST" ->
  code (fst (handler db (Some s) env req)) = 201 ->
  exists f user,
    form req = ret f /\ findUser (email s) (users db) = Some user /\
    payload (fst (handler db (Some s) env req)) =
      Created "Incident created successfully" (new_incident f user env) /\
    findOne (insertedId env) (incidents db) = None /\
    findOne (insertedId env) (incidents (snd (handler db (Some s) env req))) =
      Some (new_incident f user env) /\
    (forall oid i, findOne oid (incidents db) = Some i ->
       findOne oid (incidents (snd (handler db (Some s) env req))) = Some i) /\
    fields f !! "title" = Some (title (new_incident f user env)) /\
    fields f !! "location" = Some (address (location (new_incident f user env))) /\
    fields f !! "type" = Some (type (new_incident f user env)) /\
    fields f !! "severity" = Some (severity (new_incident f user env)).
Proof.
  intros Hm. rewrite (handler_post ObjectId_new regex_i _ _ _ _ Hm). open_post.
  destruct (form req) as [e|f]; simpl; [discriminate|].
  destruct (required_present f) eqn:Hreq;
    [rewrite (required_present_true _ Hreq)
    |rewrite (required_present_false _ Hreq); simpl; discriminate].
  destruct (findUser (email s) (users db)) as [user|]; simpl; [|discriminate].
  unfold insertOne. simpl.
  destruct (findOne (insertedId env) (incidents db)) eqn:Hfree; simpl; [discriminate|].
  intros _. exists f, user. split; [reflexivity|]. split; [reflexivity|].
  split; [reflexivity|]. split; [reflexivity|]. split.
  { rewrite findOne_app, Hfree. now apply findOne_here. }
  split.
  { intros oid i Hf. now rewrite findOne_app, Hf. }
  unfold required_present in Hreq.
  apply andb_true_iff in Hreq as [Hreq H4]. apply andb_true_iff in Hreq as [Hreq H3].
  apply andb_true_iff in Hreq as [H1 H2]. simpl.
  destruct (fields f !! "title"); [|discriminate].
  destruct (fields f !! "location"); [|discriminate].
  destruct (fields f !! "type"); [|discriminate].
  destruct (fields f !! "severity"); [|discriminate].
  repeat split.
Qed.

(** X6. Creating an incident and then deleting it as the same caller
    gives back the database there was before: when the driver reads the
    assigned identifier back as itself, the deletion of the identifier
    just assigned is answered 200 and leaves exactly the incidents and
    users of the start. *)
Theorem create_then_delete db s env req env' del :
  method req = "POST" ->
  code (fst (handler db (Some s) env req)) = 201 ->
  method del = "DELETE" ->
  query del !! "id" = Some (insertedId env) ->
  String.eqb (insertedId env) "" = false ->
  ObjectId_new (JStr (insertedId env)) = Some (insertedId env) ->
  handler (snd (handler db (Some s) env req)) (Some s) env' del =
    (respond 200 (Message "Incident deleted successfully"), db).
Proof.
  intros Hm Hc Hd Hq Hne Hoid.
  rewrite (handler_post ObjectId_new regex_i _ _ _ _ Hm) in *.
  destruct (post_cases db s env req) as [[_ H]|[Hc' _]]; [|contradiction].
  destruct H as (f & user & inc & _ & Hu & Hfree & Hid & _ & _ & Hrb & _ & Hdb).
  rewrite Hdb. rewrite (handler_delete ObjectId_new regex_i _ _ _ _ Hd).
  open_delete. unfold ObjectId in Hq. rewrite Hq. simpl. rewrite Hne. simpl.
  unfold new_ObjectId. rewrite Hoid. simpl.
  rewrite findOne_app, Hfree, (findOne_here _ _ _ Hid).
  rewrite Hrb. simpl. rewrite (findUser_email _ _ _ Hu), String.eqb_refl. simpl.
  rewrite (deleteOne_split _ _ _ _ Hfree Hid), app_nil_r. now destruct db.
Qed.

(** ** Status update: the answers to an official *)

(** X7. A status update by an official that names an identifier and one
    of the four statuses is answered 500 when the driver refuses the
    identifier, 404 (nothing written) when no incident has it, and 200
    otherwise, whatever the status of the incident was: no order of the
    statuses is enforced.  After a 200 a lookup by that identifier
    returns the incident with the new status. *)
Theorem status_update_outcomes db s env req id st :
  method req = "PATCH" ->
  userType s = "official" ->
  get_prop (body req) "id" = ret id ->
  get_prop (body req) "status" = ret (JStr st) ->
  truthy id = true ->
  In st validStatuses ->
  (ObjectId_new id = None ->
   handler db (Some s) env req =
     (respond 500 (Failure "Error updating incident status" BSONError), db)) /\
  (forall oid, ObjectId_new id = Some oid ->
     (findOne oid (incidents db) = None ->
      handler db (Some s) env req = (respond 404 (Message "Incident not found"), db)) /\
     (forall i, findOne oid (incidents db) = Some i ->
        fst (handler db (Some s) env req) =
          respond 200 (Message "Incident status updated successfully") /\
        findOne oid (incidents (snd (handler db (Some s) env req))) =
          Some (set_status st (clock env 0%nat) s i))).
Proof.
  intros Hm Ho Hid Hst Ht Hin.
  rewrite (handler_patch ObjectId_new regex_i _ _ _ _ Hm). open_patch.
  assert (Hne : truthy (JStr st) = true).
  { simpl. destruct Hin as [<-|[<-|[<-|[<-|[]]]]]; reflexivity. }
  assert (Hv : includes validStatuses (JStr st) = true).
  { apply existsb_exists. exists st. split; [exact Hin|apply String.eqb_refl]. }
  rewrite Ho, Hid, Hst. cbn [bind ret negb String.eqb]. rewrite Ht, Hne, Hv.
  cbn [negb orb js_string]. unfold new_ObjectId. split.
  - intros ->. reflexivity.
  - intros oid ->. simpl. split.
    + intros Hf. rewrite (updateOne_miss _ _ _ Hf). simpl. now destruct db.
    + intros i Hf. destruct (findOne_split _ _ _ Hf) as (l1 & l2 & Hl & Hn & Hi).
      rewrite Hl, (updateOne_split _ _ _ _ _ Hn Hi). simpl. split; [reflexivity|].
      rewrite findOne_app, Hn. now apply findOne_here.
Qed.

(** ** Deleting twice *)

(** X8. A deletion answered 200 is final: where identifiers are unique,
    the same request sent again, by any authenticated caller, is
    answered 404 and writes nothing. *)
Theorem delete_twice db s env req s' env' :
  method req = "DELETE" ->
  ids_unique db ->
  code (fst (handler db (Some s) env req)) = 200 ->
  handler (snd (handler db (Some s) env req)) (Some s') env' req =
    (respond 404 (Message "Incident not found"), snd (handler db (Some s) env req)).
Proof.
  intros Hm Hu. rewrite !(handler_delete ObjectId_new regex_i _ _ _ _ Hm).
  open_delete.
  destruct (negb (present (query req !! "id"))) eqn:Hp; simpl; [discriminate|].
  unfold new_ObjectId.
  destruct (ObjectId_new _) as [oid|]; simpl; [|discriminate].
  destruct (findOne oid (incidents db)) as [i|] eqn:Hf; simpl; [|discriminate].
  match goal with |- context [if ?c then _ else _] => destruct c end; simpl; [discriminate|].
  intros _. destruct (findOne_split _ _ _ Hf) as (l1 & l2 & Hl & Hn & Hi).
  unfold ids_unique in Hu. rewrite Hl in Hu.
  rewrite Hl, (deleteOne_split _ _ _ _ Hn Hi), (unique_gone _ _ _ _ Hu Hi). reflexivity.
Qed.

(** ** Listing: a negative offset *)

(** X9. A listing whose page and limit give a negative offset
    [(page - 1) * limit] (a page below 1 with a positive limit, or a
    page above 1 with a negative limit) is answered 500 and writes
    nothing. *)
Theorem negative_offset_refused db s env req :
  method req = "GET" ->
  (query_int (query req) "page" 1 - 1) * query_int (query req) "limit" 10 < 0 ->
  handler db (Some s) env req =
    (respond 500 (Failure "Error fetching incidents" MongoServerError), db).
Proof.
  intros Hm Hneg. rewrite (handler_get ObjectId_new regex_i _ _ _ _ Hm). open_get.
  destruct (compile_query (build_query (query req !! "search"))) as [e|p] eqn:Hq; simpl.
  - destruct (build_query (query req !! "search")) as [|cs]; simpl in Hq; [discriminate|].
    assert (He : forall cs' e', compile_clauses regex_i cs' = inl e' -> e' = MongoServerError).
    { induction cs' as [|[f pat] cs' IH]; simpl; [discriminate|].
      intros e'. destruct (regex_i pat); [|now intros [= <-]].
      destruct (compile_clauses regex_i cs'); simpl; [|discriminate].
      intros [= <-]. now apply IH. }
    now rewrite (He _ _ Hq).
  - unfold window. apply Z.ltb_lt in Hneg. now rewrite Hneg.
Qed.

End Outcomes.

(** * The dashboard against the route *)

(** ** What the page shows of a fetched list *)

Lemma some_suffix_spec (g : list ascii -> bool) s :
  some_suffix g s = true <-> exists pre rest, s = pre ++ rest /\ g rest = true.
Proof.
  induction s as [|d s IH]; simpl.
  - rewrite orb_false_r. split.
    + intros H. now exists [], [].
    + intros (pre & rest & H & Hg). destruct pre, rest; try discriminate. exact Hg.
  - rewrite orb_true_iff, IH. split.
    + intros [H|(pre & rest & -> & Hg)].
      * now exists [], (d :: s).
      * now exists (d :: pre), rest.
    + intros (pre & rest & H & Hg). destruct pre as [|x pre]; simpl in H.
      * left. now rewrite H.
      * right. injection H as _ ->. now exists pre, rest.
Qed.

Lemma starts_with_spec needle hay :
  Dashboard.starts_with needle hay = true <-> exists post, hay = needle ++ post.
Proof.
  revert hay. induction needle as [|c needle IH]; intros hay; simpl.
  - split; [intros _; now exists hay|reflexivity].
  - destruct hay as [|d hay].
    + split; [discriminate|intros [post H]; discriminate].
    + rewrite andb_true_iff, IH, Ascii.eqb_eq. split.
      * intros [-> [post ->]]. now exists post.
      * intros [post [= -> ->]]. split; [reflexivity|now exists post].
Qed.

Lemma includes_lower text term :
  Dashboard.includes (Dashboard.toLowerCase text) (Dashboard.toLowerCase term) = true <->
  occurs_ci term text.
Proof.
  unfold Dashboard.includes, Dashboard.toLowerCase, occurs_ci.
  rewrite !list_ascii_of_string_of_list_ascii, some_suffix_spec. split.
  - intros (pre & rest & H & Hs). apply starts_with_spec in Hs as [post ->].
    now exists pre, post.
  - intros (pre & post & H). exists pre, (fold_case term ++ post). split; [exact H|].
    apply starts_with_spec. now exists post.
Qed.

Lemma filteredIncidents_In searchQuery incidents v :
  In v (Dashboard.filteredIncidents searchQuery incidents) <->
  In v incidents /\
  (occurs_ci searchQuery (view_title v) \/ occurs_ci searchQuery (view_address v) \/
   occurs_ci searchQuery (view_type v)).
Proof.
  unfold Dashboard.filteredIncidents. rewrite filter_In. cbv zeta.
  rewrite !orb_true_iff, !includes_lower. tauto.
Qed.

(** X10. On ASCII text (the search text and the title, address and type
    of the fetched incidents) the page shows, in the order fetched,
    exactly the fetched incidents in whose title, address or type the
    search text occurs as a substring, letter case apart; the
    description is not looked at.  With an empty search text it shows
    them all. *)
Theorem dashboard_filter_spec searchQuery incidents :
  ascii_text searchQuery = true ->
  forallb ascii_card incidents = true ->
  (forall v, In v (Dashboard.filteredIncidents searchQuery incidents) <->
     In v incidents /\
     (occurs_ci searchQuery (view_title v) \/ occurs_ci searchQuery (view_address v) \/
      occurs_ci searchQuery (view_type v))) /\
  sublist (Dashboard.filteredIncidents searchQuery incidents) incidents /\
  Dashboard.filteredIncidents "" incidents = incidents.
Proof.
  intros _ _.
  split; [intros v; apply filteredIncidents_In|]. split.
  - unfold Dashboard.filteredIncidents. cbv zeta.
    induction incidents as [|v l IH]; [constructor|].
    cbn [List.filter]. destruct (_ || _); now constructor.
  - unfold Dashboard.filteredIncidents. cbv zeta.
    induction incidents as [|v l IH]; [reflexivity|].
    cbn [List.filter].
    assert (H : Dashboard.includes (Dashboard.toLowerCase (view_title v))
                  (Dashboard.toLowerCase "") = true).
    { apply includes_lower. now exists [], (fold_case (view_title v)). }
    rewrite H. cbn [orb]. now rewrite IH.
Qed.

Section Client.

Variable ObjectId_new : JsVal -> option ObjectId.
Variable regex_i : string -> option (string -> bool).

Local Abbreviation handler := (handler ObjectId_new regex_i).
Local Abbreviation handle_get := (handle_get regex_i).
Local Abbreviation compile_query := (compile_query regex_i).
Local Abbreviation reachable := (reachable ObjectId_new regex_i).

Lemma window_within s n l w : window s n l = ret w -> forall x, In x w -> In x l.
Proof.
  unfold window. destruct (s <? 0); [discriminate|]. intros [= <-] x Hx.
  assert (Hd : forall y, In y (drop (Z.to_nat s) l) -> In y l).
  { intros y Hy. apply list_elem_of_In. apply list_elem_of_In in Hy.
    exact (sublist_subseteq _ _ (sublist_drop _ _) y Hy). }
  destruct (n =? 0); [now apply Hd|].
  apply Hd. apply list_elem_of_In. apply list_elem_of_In in Hx.
  exact (sublist_subseteq _ _ (sublist_take _ _) x Hx).
Qed.

(** What a listing lists are views of stored incidents the filter
    holds of. *)
Lemma listed_matches db s env req p v :
  method req = "GET" ->
  compile_query (build_query (query req !! "search")) = ret p ->
  In v (listed (fst (handler db (Some s) env req))) ->
  exists i, v = view i /\ In i (incidents db) /\ p i = true.
Proof.
  intros Hm Hq. rewrite (handler_get ObjectId_new regex_i _ _ _ _ Hm). open_get.
  rewrite Hq. simpl.
  destruct (window _ _ _) as [e|w] eqn:Hw; simpl; [intros []|].
  unfold listed. simpl. intros Hv. apply in_map_iff in Hv as (i & <- & Hi).
  exists i. split; [reflexivity|].
  apply (window_within _ _ _ _ Hw) in Hi.
  apply (Permutation_in _ (sort_desc_perm _)) in Hi.
  now apply filter_In in Hi.
Qed.

Lemma url_plain_no_meta q : url_plain q = true -> no_meta q = true.
Proof.
  unfold url_plain, no_meta. intros H. apply forallb_forall. intros c Hc.
  apply (proj1 (forallb_forall _ _) H) in Hc. revert Hc.
  destruct c as [[] [] [] [] [] [] [] []]; vm_compute; congruence.
Qed.

(** X11. For a search text of letters, digits, [-], [_] and [~], which
    the URL carries to the route as typed, and stored incidents whose
    title, description, address and type are ASCII: every incident the
    route returns holds the text in its title, description, address or
    type, and one that the page then does not show holds it in its
    description only. *)
Theorem description_matches_are_hidden db s env req q v :
  method req = "GET" ->
  query req !! "search" = Some q ->
  String.eqb q "" = false ->
  url_plain q = true ->
  forallb ascii_fields (incidents db) = true ->
  literal_on_plain regex_i ->
  In v (listed (fst (handler db (Some s) env req))) ->
  (occurs_ci q (view_title v) \/ occurs_ci q (view_description v) \/
   occurs_ci q (view_address v) \/ occurs_ci q (view_type v)) /\
  (~ In v (Dashboard.filteredIncidents q (listed (fst (handler db (Some s) env req)))) ->
   occurs_ci q (view_description v) /\ ~ occurs_ci q (view_title v) /\
   ~ occurs_ci q (view_address v) /\ ~ occurs_ci q (view_type v)).
Proof.
  intros Hm Hq Hne Hurl _ Hlit Hv.
  pose proof (url_plain_no_meta q Hurl) as Hplain.
  destruct (plain_term_filter regex_i q Hlit Hne Hplain) as (p & Hp & Hspec).
  rewrite <- Hq in Hp.
  destruct (listed_matches db s env req p v Hm Hp Hv) as (i & -> & _ & Hi).
  apply Hspec in Hi. unfold occurs_in_record in Hi. simpl.
  split; [exact Hi|]. intros Hnot.
  assert (H3 : ~ (occurs_ci q (title i) \/ occurs_ci q (address (location i)) \/
                  occurs_ci q (type i))).
  { intros H. apply Hnot. apply filteredIncidents_In. now split. }
  tauto.
Qed.

(** ** The buttons of a card *)

(** X12. The buttons ask for nothing the route forbids.  A Delete
    button is on a card only for the reporter of the incident, and the
    deletion it sends (where the driver reads the identifier back as
    itself) is answered 200.  The Update Status button is there exactly
    when a status update by that caller is not answered 403.  An
    official who is not the reporter has no Delete button, though the
    route would answer that deletion with 200 as well. *)
Theorem buttons_are_authorized db s env i del :
  findOne (_id i) (incidents db) = Some i ->
  method del = "DELETE" ->
  query del !! "id" = Some (view_id (view i)) ->
  String.eqb (_id i) "" = false ->
  ObjectId_new (JStr (_id i)) = Some (_id i) ->
  (Dashboard.showsDelete s (view i) = true ->
   fst (handler db (Some s) env del) = respond 200 (Message "Incident deleted successfully")) /\
  (forall upd, method upd = "PATCH" ->
     (Dashboard.showsUpdateStatus s = true <->
      code (fst (handler db (Some s) env upd)) <> 403)) /\
  (userType s = "official" -> email s <> reporter_email (reportedBy i) ->
   Dashboard.showsDelete s (view i) = false /\
   fst (handler db (Some s) env del) = respond 200 (Message "Incident deleted successfully")).
Proof.
  intros Hf Hd Hq Hne Hoid.
  assert (Hdel : reporter_email (reportedBy i) = email s \/ userType s = "official" ->
                 fst (handler db (Some s) env del) =
                 respond 200 (Message "Incident deleted successfully")).
  { intros Hor. rewrite (handler_delete ObjectId_new regex_i _ _ _ _ Hd). open_delete.
    unfold ObjectId in Hq. rewrite Hq. simpl. rewrite Hne. simpl.
    unfold new_ObjectId. rewrite Hoid. simpl. rewrite Hf.
    assert (Hg : negb (String.eqb (reporter_email (reportedBy i)) (email s))
                 && negb (String.eqb (userType s) "official") = false).
    { destruct Hor as [H|H]; rewrite H, String.eqb_refl; simpl;
        [reflexivity|apply andb_false_r]. }
    now rewrite Hg. }
  split; [|split].
  - unfold Dashboard.showsDelete. simpl. intros H. apply String.eqb_eq in H.
    apply Hdel. now left.
  - intros upd Hu. unfold Dashboard.showsUpdateStatus.
    rewrite (handler_patch ObjectId_new regex_i _ _ _ _ Hu).
    destruct (String.eqb (userType s) "official") eqn:Ho.
    + split; [intros _|reflexivity]. now apply patch_official_code.
    + rewrite (patch_not_official ObjectId_new _ _ _ _ Ho). simpl.
      split; [discriminate|]. intros H. now contradiction H.
  - intros Ho Hne'. split; [|apply Hdel; now right].
    unfold Dashboard.showsDelete. simpl. now apply String.eqb_neq.
Qed.

(** ** The paging buttons *)

(** X13. While the total stays the same, the paging buttons, starting
    from page 1, keep the page between 1 and the page count whenever
    there is at least one incident to list.  When there is none the
    page count is 0, Next is enabled and sets the page to 0; the page
    never goes below 0. *)
Theorem paging_buttons_range total clicks :
  0 <= total ->
  let totalPages := Dashboard.totalPages_of total in
  let page := fold_left (Dashboard.click totalPages) clicks 1 in
  (1 <= total -> 1 <= page <= totalPages) /\
  (total = 0 -> 0 <= page <= 1 /\ Dashboard.click totalPages 1 Dashboard.Next = 0).
Proof.
  intros Ht totalPages page.
  assert (Htp : (totalPages - 1) * 10 < total <= totalPages * 10).
  { apply (ceil_div_bounds total 10). lia. }
  assert (Hinv : forall cs p, Z.min 1 totalPages <= p <= Z.max 1 totalPages ->
            Z.min 1 totalPages <= fold_left (Dashboard.click totalPages) cs p
              <= Z.max 1 totalPages).
  { induction cs as [|c cs IH]; intros p Hp; [exact Hp|]. simpl. apply IH.
    destruct c; simpl; unfold Dashboard.clickPrevious, Dashboard.clickNext,
      Dashboard.previousDisabled, Dashboard.nextDisabled.
    - destruct (p =? 1); lia.
    - destruct (p =? totalPages); lia. }
  specialize (Hinv clicks 1 ltac:(lia)). fold page in Hinv. split.
  - intros H1. lia.
  - intros ->. assert (totalPages = 0) by lia. split; [lia|].
    unfold Dashboard.click, Dashboard.clickNext, Dashboard.nextDisabled.
    replace totalPages with 0 by lia. reflexivity.
Qed.

(** ** A status update seen from the page *)

Lemma compile_clauses_respects cs : forall p x y,
  compile_clauses regex_i cs = ret p ->
  (forall f, field_value f x = field_value f y) -> p x = p y.
Proof.
  induction cs as [|[f pat] cs IH]; simpl; intros p x y.
  - intros [= <-] _. reflexivity.
  - destruct (regex_i pat) as [m|]; [|discriminate].
    destruct (compile_clauses regex_i cs) as [e|others]; simpl; [discriminate|].
    intros [= <-] Hxy. now rewrite (Hxy f), (IH others x y eq_refl Hxy).
Qed.

Lemma compile_query_respects q p x y :
  compile_query q = ret p ->
  (forall f, field_value f x = field_value f y) -> p x = p y.
Proof.
  destruct q as [|cs]; simpl.
  - intros [= <-] _. reflexivity.
  - apply compile_clauses_respects.
Qed.

Lemma filter_map_same (p : Incident -> bool) g l :
  (forall x, p (g x) = p x) -> List.filter p (map g l) = map g (List.filter p l).
Proof.
  intros H. induction l as [|x l IH]; simpl; [reflexivity|].
  rewrite H. destruct (p x); simpl; now rewrite IH.
Qed.

Lemma insert_desc_map g i l :
  (forall x, createdAt (g x) = createdAt x) ->
  insert_desc (g i) (map g l) = map g (insert_desc i l).
Proof.
  intros H. induction l as [|j l IH]; simpl; [reflexivity|].
  rewrite !H. destruct (createdAt j <=? createdAt i); simpl; [reflexivity|].
  now rewrite IH.
Qed.

Lemma sort_desc_map g l :
  (forall x, createdAt (g x) = createdAt x) ->
  sort_desc (map g l) = map g (sort_desc l).
Proof.
  intros H. unfold sort_desc. induction l as [|x l IH]; simpl; [reflexivity|].
  now rewrite IH, insert_desc_map.
Qed.

Lemma window_map (g : Incident -> Incident) s n l :
  window s n (map g l) =
  match window s n l with
  | inl e => inl e
  | inr w => inr (map g w)
  end.
Proof.
  unfold window. destruct (s <? 0); [reflexivity|]. simpl.
  destruct (n =? 0); now rewrite <- ?firstn_map, <- ?skipn_map.
Qed.

Lemma map_untouched (g : Incident -> Incident) oid l :
  findOne oid l = None ->
  map (fun x => if has_id oid x then g x else x) l = l.
Proof.
  unfold findOne. induction l as [|x l IH]; simpl; [reflexivity|].
  destruct (has_id oid x); [discriminate|]. intros H. now rewrite (IH H).
Qed.

Lemma update_as_map (g : Incident -> Incident) oid l1 i l2 :
  List.NoDup (map _id (l1 ++ i :: l2)) -> findOne oid l1 = None -> _id i = oid ->
  l1 ++ g i :: l2 = map (fun x => if has_id oid x then g x else x) (l1 ++ i :: l2).
Proof.
  intros Hu Hn Hi. rewrite map_app. simpl.
  rewrite (map_untouched g oid l1 Hn).
  assert (H2 : findOne oid l2 = None).
  { pose proof (unique_gone _ _ _ _ Hu Hi) as H. rewrite findOne_app, Hn in H. exact H. }
  rewrite (map_untouched g oid l2 H2).
  unfold has_id at 1. now rewrite Hi, String.eqb_refl.
Qed.

(** X14. After a status update answered 200, the list the page makes by
    putting the new status on the card with that identifier is the list
    the route returns when the same listing is asked again: where
    identifiers are unique and the driver reads the identifier back as
    itself, the listing after the update has the answer code of the
    listing before it, the same total and page count, and as its
    incidents those of the listing before with the status replaced on
    the updated one. *)
Theorem local_status_matches_refetch db s env upd id st get s' env' env'' :
  ids_unique db ->
  method upd = "PATCH" ->
  body upd = Dashboard.statusUpdateBody id st ->
  ObjectId_new (JStr id) = Some id ->
  code (fst (handler db (Some s) env upd)) = 200 ->
  method get = "GET" ->
  listed (fst (handler (snd (handler db (Some s) env upd)) (Some s') env'' get)) =
    Dashboard.setStatus id st (listed (fst (handler db (Some s') env' get))) /\
  code (fst (handler (snd (handler db (Some s) env upd)) (Some s') env'' get)) =
    code (fst (handler db (Some s') env' get)) /\
  (forall items total page totalPages,
     payload (fst (handler db (Some s') env' get)) = Listing items total page totalPages ->
     payload (fst (handler (snd (handler db (Some s) env upd)) (Some s') env'' get)) =
       Listing (Dashboard.setStatus id st items) total page totalPages).
Proof.
  intros Hu Hm Hb Hoid Hc Hg.
  rewrite (handler_patch ObjectId_new regex_i _ _ _ _ Hm) in *.
  destruct (String.eqb (userType s) "official") eqn:Ho;
    [|rewrite (patch_not_official ObjectId_new _ _ _ _ Ho) in Hc; discriminate].
  destruct (patch_cases ObjectId_new db s env upd Ho) as [[_ H]|[Hc' _]]; [|contradiction].
  destruct H as (id' & st' & oid & l1 & i & l2 & Hid & Hst & Hin & Hoid' & Hl & Hn & Hi & Hdb).
  rewrite Hb in Hid, Hst. injection Hid as <-. injection Hst as <-.
  rewrite Hoid in Hoid'. injection Hoid' as <-.
  rewrite Hdb. clear Hdb Hc.
  set (g := set_status st (clock env 0%nat) s).
  set (g' := fun x => if has_id id x then g x else x).
  unfold ids_unique in Hu. rewrite Hl in Hu.
  rewrite (update_as_map g id l1 i l2 Hu Hn Hi). fold g'. rewrite <- Hl.
  assert (Hfield : forall x f, field_value f (g' x) = field_value f x).
  { intros x f. unfold g'. destruct (has_id id x); [|reflexivity]. now destruct f. }
  assert (Htime : forall x, createdAt (g' x) = createdAt x).
  { intros x. unfold g'. now destruct (has_id id x). }
  assert (Hst : String.eqb st "" = false).
  { destruct Hin as [<-|[<-|[<-|[<-|[]]]]]; reflexivity. }
  assert (Hview : forall x, view (g' x) =
            (if String.eqb (view_id (view x)) id then Dashboard.with_status (view x) st
             else view x)).
  { intros x. unfold g', has_id. simpl. destruct (String.eqb (_id x) id); [|reflexivity].
    unfold view, Dashboard.with_status, g. simpl. now rewrite Hst. }
  rewrite !(handler_get ObjectId_new regex_i _ _ _ _ Hg). open_get. simpl.
  destruct (compile_query (build_query (query get !! "search"))) as [e|p] eqn:Hq; simpl.
  { split; [reflexivity|]. split; [reflexivity|]. intros; discriminate. }
  assert (Hp : forall x, p (g' x) = p x).
  { intros x. apply (compile_query_respects _ _ _ _ Hq). apply Hfield. }
  rewrite (filter_map_same p g' _ Hp), (sort_desc_map g' _ Htime), window_map.
  rewrite length_map.
  destruct (window _ _ (sort_desc (List.filter p (incidents db)))) as [e|w]; simpl.
  { split; [reflexivity|]. split; [reflexivity|]. intros; discriminate. }
  assert (Hitems : map view (map g' w) = Dashboard.setStatus id st (map view w)).
  { unfold Dashboard.setStatus. rewrite !map_map. apply map_ext. exact Hview. }
  unfold listed. simpl. rewrite Hitems.
  split; [reflexivity|]. split; [reflexivity|].
  intros items total page totalPages [= <- <- <- <-]. reflexivity.
Qed.

End Client.

(** * The two route files against each other *)

Ltac open_second := unfold ApiIncidents.handler, ApiIncidents.handle_delete,
  ApiIncidents.delete_incident, ApiIncidents.handle_get, ApiIncidents.catch, find, countDocuments.

Section Routes.

Variable ObjectId_new : JsVal -> option ObjectId.
Variable regex_i : string -> option (string -> bool).

Local Abbreviation handler := (handler ObjectId_new regex_i).
Local Abbreviation second := (ApiIncidents.handler ObjectId_new regex_i).
Local Abbreviation compile_query := (compile_query regex_i).

(** X15. The two routes disagree on who may delete.  With no [id] both
    answer 400, and the second route answers 400 as well when [id] is
    given several times.  With an [id] given once, for a caller whose
    role is not [admin], they give the same status code and leave the
    same database.  For an [admin] who is not the reporter of an
    existing incident, the route of [index.ts] answers 403 and keeps the
    incident, the second route answers 200 and removes it. *)
Theorem delete_policies_differ db s env req :
  method req = "DELETE" ->
  (query req !! "id" = None ->
   handler db (Some s) env req =
     (respond 400 (Message "Incident ID is required"), db) /\
   second db (Some s) req =
     (ApiIncidents.respond 400 (ApiIncidents.Message "Invalid incident ID"), db)) /\
  (forall ids,
   ApiIncidents.delete_incident ObjectId_new db s (Some (ApiIncidents.Many ids)) =
     (ApiIncidents.respond 400 (ApiIncidents.Message "Invalid incident ID"), db)) /\
  (forall id, query req !! "id" = Some id ->
   userType s <> "admin" ->
   code (fst (handler db (Some s) env req)) =
     ApiIncidents.code (fst (second db (Some s) req)) /\
   snd (handler db (Some s) env req) = snd (second db (Some s) req)) /\
  (userType s = "admin" ->
   forall id oid i,
     query req !! "id" = Some id -> String.eqb id "" = false ->
     ObjectId_new (JStr id) = Some oid ->
     findOne oid (incidents db) = Some i ->
     reporter_email (reportedBy i) <> email s ->
     handler db (Some s) env req =
       (respond 403 (Message "Not authorized to delete this incident"), db) /\
     second db (Some s) req =
       (ApiIncidents.respond 200 (ApiIncidents.Message "Incident deleted successfully"),
        {| incidents := deleteOne oid (incidents db); users := users db |})).
Proof.
  intros Hm. rewrite (handler_delete ObjectId_new regex_i _ _ _ _ Hm).
  split; [|split; [reflexivity|]].
  { open_delete. open_second. rewrite Hm. simpl. intros ->. simpl. now split. }
  open_delete. open_second. rewrite Hm. simpl. split.
  - intros id Hq Hna. rewrite Hq. apply String.eqb_neq in Hna. simpl.
    destruct (String.eqb id ""); simpl; [now split|].
    unfold new_ObjectId. destruct (ObjectId_new _) as [oid|]; simpl; [|now split].
    destruct (findOne oid (incidents db)) as [i|] eqn:Hf; simpl; [|now split].
    rewrite Hna. simpl. rewrite andb_true_r.
    destruct (negb (String.eqb (reporter_email (reportedBy i)) (email s))
              && negb (String.eqb (userType s) "official")); simpl; now split.
  - intros Ha id oid i Hq Hne Hoid Hf Hown. rewrite Hq. simpl. rewrite Hne. simpl.
    unfold new_ObjectId. rewrite Hoid. simpl. rewrite Hf.
    apply String.eqb_neq in Hown. rewrite Hown, Ha. simpl. now split.
Qed.

(** X16. The second route searches three fields where the route of
    [index.ts] searches four: for any search term both accept, every
    incident the second route's filter holds of the first route's filter
    holds of as well, and the incidents on which they differ are those
    the term matches in the type and in none of title, description,
    address. *)
Theorem second_route_search_narrower t m :
  String.eqb t "" = false ->
  regex_i t = Some m ->
  exists p p2,
    compile_query (build_query (Some t)) = ret p /\
    compile_query (ApiIncidents.build_query (Some t)) = ret p2 /\
    (forall i, p2 i = true -> p i = true) /\
    (forall i, p i = true /\ p2 i = false <->
       m (type i) = true /\ m (title i) = false /\ m (description i) = false /\
       m (address (location i)) = false).
Proof.
  intros Hne Hm. unfold build_query, ApiIncidents.build_query. rewrite Hne. simpl.
  rewrite Hm. simpl. eexists _, _. split; [reflexivity|]. split; [reflexivity|].
  split; intros i; simpl.
  - destruct (m (title i)), (m (description i)), (m (address (location i))),
      (m (type i)); simpl; congruence.
  - destruct (m (title i)), (m (description i)), (m (address (location i))),
      (m (type i)); simpl; intuition congruence.
Qed.

Lemma second_get_keeps_db db req :
  snd (ApiIncidents.catch "Error fetching incidents" db
         (ApiIncidents.handle_get regex_i db req)) = db.
Proof.
  open_second. simpl.
  destruct (compile_query _) as [e|p]; simpl; [reflexivity|].
  destruct (window _ _ _); reflexivity.
Qed.

Lemma second_delete_outcomes db s req :
  let r := ApiIncidents.handle_delete ObjectId_new db s req in
  snd r = db \/
  (ApiIncidents.code (fst r) = 200 /\
   exists oid l1 i l2,
     incidents db = l1 ++ i :: l2 /\ deleteOne oid (incidents db) = l1 ++ l2 /\
     snd r = {| incidents := deleteOne oid (incidents db); users := users db |}).
Proof.
  intros r. subst r. open_second.
  destruct (ApiIncidents.invalid_id _); simpl; [now left|].
  unfold new_ObjectId. destruct (ObjectId_new _) as [oid|]; simpl; [|now left].
  destruct (findOne oid (incidents db)) as [i|] eqn:Hf; simpl; [|now left].
  match goal with |- context [if ?c then _ else _] => destruct c end; simpl; [now left|].
  right. split; [reflexivity|].
  destruct (findOne_split _ _ _ Hf) as (l1 & l2 & Hl & Hn & Hi).
  exists oid, l1, i, l2. split; [exact Hl|]. split; [|reflexivity].
  now rewrite Hl, (deleteOne_split _ _ _ _ Hn Hi).
Qed.

(** X17. The second route creates and updates nothing: it leaves the
    users as they were, and the incidents either as they were or, on a
    deletion answered 200, less the one incident deleted; any method
    other than GET and DELETE is answered 405 with the two allowed
    methods named. *)
Theorem second_route_only_deletes db session req :
  users (snd (second db session req)) = users db /\
  (snd (second db session req) = db \/
   (method req = "DELETE" /\ ApiIncidents.code (fst (second db session req)) = 200 /\
    exists oid l1 i l2,
      incidents db = l1 ++ i :: l2 /\ deleteOne oid (incidents db) = l1 ++ l2 /\
      incidents (snd (second db session req)) = deleteOne oid (incidents db))) /\
  (forall s, session = Some s ->
     String.eqb (method req) "GET" = false -> String.eqb (method req) "DELETE" = false ->
     ApiIncidents.code (fst (second db session req)) = 405 /\
     ApiIncidents.allow (fst (second db session req)) = ["GET"; "DELETE"] /\
     snd (second db session req) = db).
Proof.
  unfold ApiIncidents.handler. destruct session as [s|];
    [|split; [reflexivity|split; [now left|intros s [=]]]].
  destruct (String.eqb (method req) "GET") eqn:Eg.
  { rewrite second_get_keeps_db. split; [reflexivity|].
    split; [now left|intros s' _ [=]]. }
  destruct (String.eqb (method req) "DELETE") eqn:Ed.
  { apply String.eqb_eq in Ed.
    destruct (second_delete_outcomes db s req)
      as [->|(Hc & oid & l1 & i & l2 & Hl & Hdel & Hdb)].
    - split; [reflexivity|]. split; [now left|intros s' _ _ [=]].
    - rewrite Hdb. split; [reflexivity|]. split; [|intros s' _ _ [=]].
      right. split; [exact Ed|]. split; [exact Hc|]. now exists oid, l1, i, l2. }
  split; [reflexivity|]. split; [now left|]. intros s' _ _ _. repeat split.
Qed.

End Routes.

(** * Numbers sent and read back *)

Lemma digit_val_digit_char d :
  (d < 10)%nat -> digit_val (digit_char d) = Some (Z.of_nat d).
Proof.
  intros H. do 10 (destruct d as [|d]; [reflexivity|]). lia.
Qed.

Lemma digits_decimal fuel : forall n acc init,
  (n < fuel)%nat -> default 0 init = 0 ->
  digits 10 init (decimal_digits fuel n acc) = digits 10 (Some (Z.of_nat n)) acc.
Proof.
  induction fuel as [|fuel IH]; intros n acc init Hn Hinit; [lia|].
  cbn [decimal_digits].
  assert (Hd : (n mod 10 < 10)%nat) by (apply Nat.mod_upper_bound; lia).
  pose proof (Nat.div_mod_eq n 10) as Hdm.
  destruct (n <? 10)%nat eqn:E.
  - apply Nat.ltb_lt in E. rewrite Nat.mod_small by exact E.
    cbn [digits]. rewrite (digit_val_digit_char n E), Hinit.
    destruct (Z.of_nat n <? 10) eqn:E'; [|apply Z.ltb_ge in E'; lia].
    replace (10 * 0 + Z.of_nat n) with (Z.of_nat n) by lia. reflexivity.
  - apply Nat.ltb_ge in E. rewrite IH; [|lia|exact Hinit].
    cbn [digits]. rewrite (digit_val_digit_char _ Hd).
    destruct (Z.of_nat (n mod 10) <? 10) eqn:E'; [|apply Z.ltb_ge in E'; lia].
    match goal with
    | |- digits 10 (Some ?a) acc = digits 10 (Some ?b) acc =>
        replace a with b by (cbv [default id]; lia)
    end.
    reflexivity.
Qed.

(** The rendering starts with a digit, and what follows is nothing or
    starts with a digit. *)
Lemma decimal_digits_shape fuel : forall n,
  (n < fuel)%nat ->
  exists d rest, decimal_digits fuel n [] = digit_char d :: rest /\ (d < 10)%nat /\
    (rest = [] \/ exists d' rest', rest = digit_char d' :: rest' /\ (d' < 10)%nat).
Proof.
  assert (G : forall fuel n acc, (n < fuel)%nat ->
            exists d rest, decimal_digits fuel n acc = digit_char d :: rest /\ (d < 10)%nat /\
              (rest = acc \/ exists d' rest', rest = digit_char d' :: rest' /\ (d' < 10)%nat)).
  { clear. induction fuel as [|fuel IH]; intros n acc Hn; [lia|].
    cbn [decimal_digits].
    assert (Hd : (n mod 10 < 10)%nat) by (apply Nat.mod_upper_bound; lia).
    destruct (n <? 10)%nat eqn:E.
    - exists (n mod 10)%nat, acc. auto.
    - apply Nat.ltb_ge in E.
      assert (Hq : (n / 10 < fuel)%nat).
      { pose proof (Nat.div_mod_eq n 10). lia. }
      destruct (IH (n / 10)%nat (digit_char (n mod 10) :: acc) Hq)
        as (d & rest & Heq & Hlt & Hrest).
      exists d, rest. split; [exact Heq|]. split; [exact Hlt|]. right.
      destruct Hrest as [->|H]; [|exact H]. eauto. }
  intros n Hn. exact (G fuel n [] Hn).
Qed.

Lemma parseInt_of_digits d rest :
  (d < 10)%nat ->
  (rest = [] \/ exists d' rest', rest = digit_char d' :: rest' /\ (d' < 10)%nat) ->
  parseInt (string_of_list_ascii (digit_char d :: rest)) =
  option_map (Z.mul 1) (digits 10 None (digit_char d :: rest)).
Proof.
  intros Hd Hrest. unfold parseInt. rewrite list_ascii_of_string_of_list_ascii.
  destruct d as [|d].
  - destruct Hrest as [->|(d' & rest' & -> & Hd')]; [reflexivity|].
    do 10 (destruct d' as [|d']; [reflexivity|]). lia.
  - do 9 (destruct d as [|d]; [reflexivity|]). lia.
Qed.

Lemma parseInt_decimal_value (n : nat) : parseInt (decimal n) = Some (Z.of_nat n).
Proof.
  unfold decimal.
  destruct (decimal_digits_shape (S n) n ltac:(lia)) as (d & rest & Heq & Hd & Hrest).
  rewrite Heq, (parseInt_of_digits d rest Hd Hrest), <- Heq.
  rewrite (digits_decimal (S n) n [] None ltac:(lia) eq_refl).
  cbn [digits option_map]. f_equal. lia.
Qed.

Lemma query_int_decimal (q : gmap string string) k d (n : nat) :
  q !! k = Some (decimal n) ->
  query_int q k d = if Nat.eqb n 0 then d else Z.of_nat n.
Proof.
  intros Hq. unfold query_int. rewrite Hq. cbn [mbind option_bind].
  rewrite parseInt_decimal_value. destruct n as [|n]; [reflexivity|].
  destruct (Z.of_nat (S n) =? 0) eqn:E; [apply Z.eqb_eq in E; lia|reflexivity].
Qed.

(** X18. A natural number of at most 2^53 - 1 written in decimal, as
    the dashboard writes the page and the limit into the URL, is read
    back by [parseInt] as that number; so the page the route computes
    with is the page sent, or 1 when 0 was sent. *)
Theorem parseInt_decimal (n : nat) :
  Z.of_nat n <= max_safe ->
  parseInt (decimal n) = Some (Z.of_nat n) /\
  (forall (q : gmap string string) k d, q !! k = Some (decimal n) ->
     query_int q k d = if Nat.eqb n 0 then d else Z.of_nat n).
Proof.
  intros _. split; [apply parseInt_decimal_value|]. intros q k d. apply query_int_decimal.
Qed.
(** * Pages of a listing *)

Lemma pages_concat {A} n : forall k (l : list A),
  (0 < n)%nat -> (length l <= k * n)%nat ->
  concat (map (fun j => take n (drop (j * n) l)) (seq 0 k)) = l.
Proof.
  induction k as [|k IH]; intros l Hn Hl.
  - destruct l; [reflexivity|simpl in Hl; lia].
  - rewrite <- cons_seq, <- seq_shift. cbn [map concat]. rewrite map_map.
    rewrite drop_0.
    rewrite (map_ext _ (fun j => take n (drop (j * n) (drop n l)))).
    + rewrite IH; [apply take_drop|exact Hn|]. rewrite length_drop. lia.
    + intros j. rewrite drop_drop. reflexivity.
Qed.

(** With no two [createdAt] alike, newest first is one order only. *)
Lemma createdAt_inj l x y :
  List.NoDup (map createdAt l) -> In x l -> In y l -> createdAt x = createdAt y -> x = y.
Proof.
  induction l as [|a l IH]; [intros _ []|].
  cbn [map]. intros Hu Hx Hy Heq. inversion Hu as [|k ks Hnot Hrest]; subst.
  destruct Hx as [->|Hx], Hy as [->|Hy].
  - reflexivity.
  - exfalso. apply Hnot. rewrite Heq. now apply in_map.
  - exfalso. apply Hnot. rewrite <- Heq. now apply in_map.
  - now apply IH.
Qed.

Lemma newer_first_trans : Relations_1.Transitive newer_first.
Proof. intros x y z. unfold newer_first. lia. Qed.

Lemma sorted_unique l1 : forall l2,
  List.NoDup (map createdAt l1) ->
  Sorted newer_first l1 -> Sorted newer_first l2 -> Permutation l1 l2 -> l1 = l2.
Proof.
  induction l1 as [|a l1 IH]; intros l2 Hu H1 H2 Hp.
  - apply Permutation_nil in Hp. now subst.
  - destruct l2 as [|b l2].
    { symmetry in Hp. now apply Permutation_nil in Hp. }
    apply (Sorted_StronglySorted newer_first_trans) in H1, H2.
    inversion H1 as [|? ? H1' Ha]; subst. inversion H2 as [|? ? H2' Hb]; subst.
    assert (Hab : a = b).
    { apply (createdAt_inj (a :: l1)); [exact Hu|now left| |].
      - apply (Permutation_in b (Permutation_sym Hp)). now left.
      - assert (Hle1 : createdAt b <= createdAt a).
        { pose proof (Permutation_in b (Permutation_sym Hp) (or_introl eq_refl)) as [->|Hin];
            [lia|]. exact (proj1 (List.Forall_forall _ _) Ha b Hin). }
        assert (Hle2 : createdAt a <= createdAt b).
        { pose proof (Permutation_in a Hp (or_introl eq_refl)) as [->|Hin]; [lia|].
          exact (proj1 (List.Forall_forall _ _) Hb a Hin). }
        lia. }
    subst b. f_equal. apply IH.
    + cbn [map] in Hu. now inversion Hu.
    + now apply StronglySorted_Sorted.
    + now apply StronglySorted_Sorted.
    + now apply Permutation_cons_inv in Hp.
Qed.

Section Paging.

Variable ObjectId_new : JsVal -> option ObjectId.
Variable regex_i : string -> option (string -> bool).

Local Abbreviation handler := (handler ObjectId_new regex_i).
Local Abbreviation second := (ApiIncidents.handler ObjectId_new regex_i).
Local Abbreviation compile_query := (compile_query regex_i).

Lemma get_listing db s env req p :
  method req = "GET" ->
  compile_query (build_query (query req !! "search")) = ret p ->
  1 <= query_int (query req) "page" 1 ->
  1 <= query_int (query req) "limit" 10 ->
  handler db (Some s) env req =
    (respond 200
       (Listing
          (map view
             (take (Z.to_nat (query_int (query req) "limit" 10))
                (drop (Z.to_nat ((query_int (query req) "page" 1 - 1)
                                 * query_int (query req) "limit" 10))
                   (sort_desc (List.filter p (incidents db))))))
          (Z.of_nat (length (List.filter p (incidents db))))
          (query_int (query req) "page" 1)
          (ceil_div (Z.of_nat (length (List.filter p (incidents db))))
             (query_int (query req) "limit" 10))), db).
Proof.
  intros Hm Hq Hp Hl. rewrite (handler_get ObjectId_new regex_i _ _ _ _ Hm). open_get.
  rewrite Hq. simpl. rewrite window_positive by nia. reflexivity.
Qed.

(** X19. The pages of a listing cut the matching incidents into
    consecutive runs.  For requests that differ in the page only (pages
    1, 2, ... with one limit of at least 1 and one accepted filter),
    when no two matching incidents have the same [createdAt], so that
    newest first is one order only, and the numbers stay exact (limit,
    every offset and the number of stored incidents at most 2^53 - 1):
    the incidents of the first pages, page after page, are all the
    matching incidents newest first, each once, as soon as the pages are
    at least [totalPages]. *)
Theorem pages_partition db s env (reqs : nat -> Request) p limit pages :
  (forall k, method (reqs k) = "GET") ->
  (forall k, compile_query (build_query (query (reqs k) !! "search")) = ret p) ->
  (forall k, query_int (query (reqs k)) "page" 1 = Z.of_nat (S k)) ->
  (forall k, query_int (query (reqs k)) "limit" 10 = limit) ->
  1 <= limit ->
  Z.of_nat pages * limit <= max_safe ->
  Z.of_nat (length (incidents db)) <= max_safe ->
  List.NoDup (map createdAt (List.filter p (incidents db))) ->
  ceil_div (Z.of_nat (length (List.filter p (incidents db)))) limit <= Z.of_nat pages ->
  forall newest_first,
    Sorted newer_first newest_first ->
    Permutation newest_first (List.filter p (incidents db)) ->
    concat (map (fun k => listed (fst (handler db (Some s) env (reqs k)))) (seq 0 pages)) =
    map view newest_first.
Proof.
  intros Hm Hq Hpage Hlimit Hl _ _ Hkeys Hpages m Hsorted Hperm.
  assert (Hm' : m = sort_desc (List.filter p (incidents db))).
  { symmetry. apply sorted_unique.
    - eapply Permutation_NoDup; [|exact Hkeys].
      apply Permutation_map. symmetry. apply sort_desc_perm.
    - apply sort_desc_sorted.
    - exact Hsorted.
    - rewrite Hperm. apply sort_desc_perm. }
  rewrite Hm'. clear Hm' Hsorted Hperm m.
  rewrite (map_ext _ (fun k => map view
             (take (Z.to_nat limit)
                (drop (k * Z.to_nat limit) (sort_desc (List.filter p (incidents db))))))).
  - rewrite <- (map_map (fun k => take (Z.to_nat limit)
                   (drop (k * Z.to_nat limit) (sort_desc (List.filter p (incidents db)))))
                 (map view)).
    rewrite <- concat_map. f_equal. apply pages_concat; [lia|].
    rewrite sort_desc_length.
    pose proof (ceil_div_bounds (Z.of_nat (length (List.filter p (incidents db)))) limit
                  ltac:(lia)) as Hb.
    apply Nat2Z.inj_le. rewrite Nat2Z.inj_mul, Z2Nat.id by lia. nia.
  - intros k. rewrite (get_listing db s env (reqs k) p (Hm k) (Hq k)).
    + unfold listed. simpl. rewrite Hpage, Hlimit. do 3 f_equal.
      rewrite <- (Nat2Z.id (k * Z.to_nat limit)). f_equal.
      rewrite Nat2Z.inj_mul, Z2Nat.id by lia. lia.
    + rewrite Hpage. lia.
    + rewrite Hlimit. exact Hl.
Qed.

(** X20. A listing the dashboard asks for (page and limit 10 written in
    decimal, the offset and the number of stored incidents at most
    2^53 - 1) is answered 200 whenever the store accepts the filter,
    with at most 10 incidents, with page 1 when the page sent was 0, and
    with the page count the dashboard computes itself from the total. *)
Theorem dashboard_listing db s env req (page : nat) p :
  method req = "GET" ->
  query req !! "page" = Some (decimal page) ->
  query req !! "limit" = Some (decimal 10) ->
  compile_query (build_query (query req !! "search")) = ret p ->
  Z.of_nat page * 10 <= max_safe ->
  Z.of_nat (length (incidents db)) <= max_safe ->
  exists items,
    handler db (Some s) env req =
      (respond 200
         (Listing items (Z.of_nat (length (List.filter p (incidents db))))
            (Z.max 1 (Z.of_nat page))
            (Dashboard.totalPages_of (Z.of_nat (length (List.filter p (incidents db)))))),
       db) /\
    (length items <= 10)%nat.
Proof.
  intros Hm Hpage Hlimit Hq _ _.
  pose proof (query_int_decimal _ _ 1 _ Hpage) as Hp.
  pose proof (query_int_decimal _ _ 10 _ Hlimit) as Hl. cbn [Nat.eqb] in Hl.
  assert (Hp' : query_int (query req) "page" 1 = Z.max 1 (Z.of_nat page)).
  { rewrite Hp. destruct page; [reflexivity|]. cbn [Nat.eqb]. lia. }
  eexists. rewrite (get_listing db s env req p Hm Hq); [|lia|rewrite Hl; lia].
  rewrite Hp', Hl. split; [reflexivity|].
  rewrite length_map, length_take. change (Z.to_nat (Z.of_nat 10)) with 10%nat. lia.
Qed.

(** X21. With no search term the two routes list the same incidents:
    they answer a listing with the same code, and where the second
    route returns stored incidents, the route of [index.ts] returns
    their views, with the same total, page and page count. *)
Theorem routes_list_alike db s env req :
  method req = "GET" ->
  query req !! "search" = None \/ query req !! "search" = Some "" ->
  code (fst (handler db (Some s) env req)) =
    ApiIncidents.code (fst (second db (Some s) req)) /\
  (forall raw total page totalPages,
     ApiIncidents.payload (fst (second db (Some s) req)) =
       ApiIncidents.Listing raw total page totalPages ->
     payload (fst (handler db (Some s) env req)) =
       Listing (map view raw) total page totalPages).
Proof.
  intros Hm Hs. rewrite (handler_get ObjectId_new regex_i _ _ _ _ Hm).
  open_get. open_second. rewrite Hm. simpl.
  assert (H1 : build_query (query req !! "search") = QAll)
    by (destruct Hs as [-> | ->]; reflexivity).
  assert (H2 : ApiIncidents.build_query (query req !! "search") = QAll)
    by (destruct Hs as [-> | ->]; reflexivity).
  rewrite H1, H2. simpl.
  destruct (window _ _ _) as [e|w]; simpl.
  - split; [reflexivity|]. intros; discriminate.
  - split; [reflexivity|]. intros raw total page totalPages [= <- <- <- <-]. reflexivity.
Qed.

End Paging.

(** * More concrete runs *)

Lemma db0_ids_unique : ids_unique db0.
Proof. repeat constructor. intros []. Qed.

Lemma stored_incident_found_witness :
  findOne (_id reported) (incidents db_reported) = Some reported.
Proof.
  apply (stored_incident_found ObjectId_hex regex_fragment [alice_user] db_reported reported).
  - exact (reach_step _ _ _ _ (Some alice) env0 (post_request bus_form) (reach_init _ _ _)).
  - left. vm_compute. reflexivity.
Defined.

Lemma report_is_immutable_witness :
  reportedBy (set_status "resolved" 2000 carol collision) = reportedBy collision /\
  createdAt (set_status "resolved" 2000 carol collision) = 1000.
Proof.
  destruct (report_is_immutable ObjectId_hex regex_fragment db0 (Some carol) env0
              (patch_request resolve_collision) collision_id collision
              (set_status "resolved" 2000 carol collision)
              db0_ids_unique ltac:(reflexivity) ltac:(vm_compute; reflexivity))
    as (_ & H1 & H2 & _).
  split; [exact H1|exact H2].
Defined.

Lemma create_rejections_witness :
  error_kind (fst (handler ObjectId_hex regex_fragment db0 (Some bob) env0
                     (post_request [("title", "Bus collision"); ("type", "collision");
                                    ("severity", "high")]))) = Some ValidationError /\
  handler ObjectId_hex regex_fragment db0 (Some bob) env0 (post_request bus_form) =
    (respond 404 (Message "User not found"), db0).
Proof.
  split.
  - destruct (create_rejections ObjectId_hex regex_fragment db0 bob env0
                (post_request [("title", "Bus collision"); ("type", "collision");
                               ("severity", "high")])
                ltac:(reflexivity)) as [_ H].
    destruct (H _ eq_refl) as [H400 _].
    apply H400. right. left. vm_compute. reflexivity.
  - destruct (create_rejections ObjectId_hex regex_fragment db0 bob env0
                (post_request bus_form) ltac:(reflexivity)) as [_ H].
    destruct (H _ eq_refl) as (_ & H404 & _).
    apply H404; vm_compute; reflexivity.
Defined.

Lemma created_is_stored_witness :
  findOne (insertedId env0) (incidents db_reported) = Some reported /\
  title reported = "Bus collision" /\ photoUrl reported = None.
Proof.
  destruct (created_is_stored ObjectId_hex regex_fragment db_empty alice env0
              (post_request bus_form) ltac:(reflexivity) ltac:(vm_compute; reflexivity))
    as (f & user & Hf & Hu & _ & _ & Hfound & _).
  injection Hf as <-. injection Hu as <-.
  split; [exact Hfound|]. split; vm_compute; reflexivity.
Defined.

Lemma create_then_delete_witness :
  handler ObjectId_hex regex_fragment db_reported (Some alice) env0
    (delete_request (insertedId env0)) =
  (respond 200 (Message "Incident deleted successfully"), db_empty).
Proof.
  apply (create_then_delete ObjectId_hex regex_fragment db_empty alice env0
           (post_request bus_form) env0 (delete_request (insertedId env0)));
    vm_compute; reflexivity.
Defined.

Lemma status_update_outcomes_witness :
  handler ObjectId_hex regex_fragment db0 (Some carol) env0
    (patch_request (JObj [("id", JStr "507f1f77bcf86cd799439099");
                          ("status", JStr "rejected")])) =
  (respond 404 (Message "Incident not found"), db0).
Proof.
  destruct (status_update_outcomes ObjectId_hex regex_fragment db0 carol env0
              (patch_request (JObj [("id", JStr "507f1f77bcf86cd799439099");
                                    ("status", JStr "rejected")]))
              (JStr "507f1f77bcf86cd799439099") "rejected"
              ltac:(reflexivity) ltac:(reflexivity) ltac:(reflexivity) ltac:(reflexivity)
              ltac:(reflexivity) ltac:(simpl; auto)) as [_ H].
  apply (H "507f1f77bcf86cd799439099"); reflexivity.
Defined.

Lemma delete_twice_witness :
  handler ObjectId_hex regex_fragment {| incidents := []; users := [alice_user] |}
    (Some bob) env0 (delete_request collision_id) =
  (respond 404 (Message "Incident not found"), {| incidents := []; users := [alice_user] |}).
Proof.
  exact (delete_twice ObjectId_hex regex_fragment db0 alice env0
           (delete_request collision_id) bob env0
           ltac:(reflexivity) db0_ids_unique ltac:(vm_compute; reflexivity)).
Defined.

Lemma negative_offset_refused_witness :
  handler ObjectId_hex regex_fragment db0 (Some alice) env0
    (get_request [("page", "2"); ("limit", "-5")]) =
  (respond 500 (Failure "Error fetching incidents" MongoServerError), db0).
Proof.
  apply (negative_offset_refused ObjectId_hex regex_fragment db0 alice env0
           (get_request [("page", "2"); ("limit", "-5")]));
    vm_compute; reflexivity.
Defined.

Lemma dashboard_filter_spec_witness :
  Dashboard.filteredIncidents "COLLISION" [view pothole; view collision] = [view collision] /\
  (In (view pothole) (Dashboard.filteredIncidents "stop" [view pothole; view collision]) ->
   occurs_ci "stop" "Pothole" \/ occurs_ci "stop" "Main St" \/ occurs_ci "stop" "road").
Proof.
  split; [vm_compute; reflexivity|].
  destruct (dashboard_filter_spec "stop" [view pothole; view collision]
              ltac:(reflexivity) ltac:(reflexivity)) as [H _].
  intros Hin. apply (H (view pothole)) in Hin as [_ Hocc]. exact Hocc.
Defined.

Lemma description_matches_are_hidden_witness :
  In (view pothole)
     (listed (fst (handler ObjectId_hex regex_fragment db_two (Some alice) env0
                     (get_request [("search", "stop")])))) /\
  Dashboard.filteredIncidents "stop"
    (listed (fst (handler ObjectId_hex regex_fragment db_two (Some alice) env0
                    (get_request [("search", "stop")])))) = [] /\
  occurs_ci "stop" (view_description (view pothole)).
Proof.
  assert (Hin : In (view pothole)
            (listed (fst (handler ObjectId_hex regex_fragment db_two (Some alice) env0
                            (get_request [("search", "stop")]))))).
  { vm_compute. left. reflexivity. }
  assert (Hshown : Dashboard.filteredIncidents "stop"
            (listed (fst (handler ObjectId_hex regex_fragment db_two (Some alice) env0
                            (get_request [("search", "stop")])))) = []).
  { vm_compute. reflexivity. }
  split; [exact Hin|]. split; [exact Hshown|].
  destruct (description_matches_are_hidden ObjectId_hex regex_fragment db_two alice env0
              (get_request [("search", "stop")]) "stop" (view pothole)
              ltac:(reflexivity) ltac:(vm_compute; reflexivity) ltac:(reflexivity)
              ltac:(reflexivity) ltac:(reflexivity) regex_fragment_literal Hin) as [_ H].
  apply H. rewrite Hshown. intros [].
Defined.

Lemma buttons_are_authorized_witness :
  fst (handler ObjectId_hex regex_fragment db0 (Some alice) env0
         (delete_request collision_id)) =
    respond 200 (Message "Incident deleted successfully") /\
  Dashboard.showsDelete carol (view collision) = false.
Proof.
  destruct (buttons_are_authorized ObjectId_hex regex_fragment db0 alice env0 collision
              (delete_request collision_id)
              ltac:(reflexivity) ltac:(reflexivity) ltac:(vm_compute; reflexivity)
              ltac:(reflexivity) ltac:(reflexivity)) as [Hdel _].
  destruct (buttons_are_authorized ObjectId_hex regex_fragment db0 carol env0 collision
              (delete_request collision_id)
              ltac:(reflexivity) ltac:(reflexivity) ltac:(vm_compute; reflexivity)
              ltac:(reflexivity) ltac:(reflexivity)) as (_ & _ & Hoff).
  split; [now apply Hdel|]. apply Hoff; [reflexivity|discriminate].
Defined.

Lemma paging_buttons_range_witness :
  fold_left (Dashboard.click (Dashboard.totalPages_of 25))
    [Dashboard.Next; Dashboard.Next; Dashboard.Next; Dashboard.Previous] 1 = 2 /\
  1 <= fold_left (Dashboard.click (Dashboard.totalPages_of 25))
         [Dashboard.Next; Dashboard.Next; Dashboard.Next; Dashboard.Next] 1 <= 3.
Proof.
  split; [reflexivity|].
  apply (paging_buttons_range 25
           [Dashboard.Next; Dashboard.Next; Dashboard.Next; Dashboard.Next]); lia.
Defined.

Lemma local_status_matches_refetch_witness :
  listed (fst (handler ObjectId_hex regex_fragment
                 (snd (handler ObjectId_hex regex_fragment db_two (Some carol) env0
                         (patch_request (Dashboard.statusUpdateBody collision_id "resolved"))))
                 (Some alice) env0 (get_request []))) =
  [view pothole; Dashboard.with_status (view collision) "resolved"].
Proof.
  destruct (local_status_matches_refetch ObjectId_hex regex_fragment db_two carol env0
              (patch_request (Dashboard.statusUpdateBody collision_id "resolved"))
              collision_id "resolved" (get_request []) alice env0 env0) as [H _].
  - repeat constructor; simpl; intuition discriminate.
  - reflexivity.
  - reflexivity.
  - reflexivity.
  - vm_compute. reflexivity.
  - reflexivity.
  - rewrite H. vm_compute. reflexivity.
Defined.

Lemma delete_policies_differ_witness :
  fst (handler ObjectId_hex regex_fragment db0 (Some bob) env0
         (delete_request collision_id)) =
    respond 403 (Message "Not authorized to delete this incident") /\
  ApiIncidents.handler ObjectId_hex regex_fragment db0 (Some bob)
    (delete_request collision_id) =
    (ApiIncidents.respond 200 (ApiIncidents.Message "Incident deleted successfully"),
     {| incidents := []; users := [alice_user] |}) /\
  code (fst (handler ObjectId_hex regex_fragment db0 (Some carol) env0
               (delete_request "abc"))) =
    ApiIncidents.code (fst (ApiIncidents.handler ObjectId_hex regex_fragment db0
                              (Some carol) (delete_request "abc"))).
Proof.
  destruct (delete_policies_differ ObjectId_hex regex_fragment db0 bob env0
              (delete_request collision_id) ltac:(reflexivity)) as (_ & _ & _ & H).
  destruct (H eq_refl collision_id collision_id collision
              ltac:(vm_compute; reflexivity) ltac:(reflexivity) ltac:(reflexivity)
              ltac:(reflexivity) ltac:(discriminate)) as [H1 H2].
  split; [now rewrite H1|]. split; [exact H2|].
  destruct (delete_policies_differ ObjectId_hex regex_fragment db0 carol env0
              (delete_request "abc") ltac:(reflexivity)) as (_ & _ & Hsame & _).
  apply (Hsame "abc"); [vm_compute; reflexivity|discriminate].
Defined.

Lemma second_route_search_narrower_witness :
  exists p p2,
    compile_query regex_fragment (build_query (Some "collision")) = ret p /\
    compile_query regex_fragment (ApiIncidents.build_query (Some "collision")) = ret p2 /\
    (p2 pothole = true -> p pothole = true).
Proof.
  destruct (regex_fragment_literal "collision" eq_refl) as (m & Hm & _).
  destruct (second_route_search_narrower regex_fragment "collision" m eq_refl Hm)
    as (p & p2 & Hp & Hp2 & Himp & _).
  exists p, p2. split; [exact Hp|]. split; [exact Hp2|]. apply Himp.
Defined.

Lemma parseInt_decimal_witness :
  parseInt (decimal 42) = Some 42 /\ parseInt (decimal 0) = Some 0.
Proof.
  split.
  - apply (parseInt_decimal 42). unfold max_safe. lia.
  - apply (parseInt_decimal 0). unfold max_safe. lia.
Defined.

Lemma pages_partition_witness :
  concat (map (fun k => listed (fst (handler ObjectId_hex regex_fragment db_two
                                       (Some alice) env0 (one_a_page k))))
              (seq 0 2)) =
  [view pothole; view collision].
Proof.
  change [view pothole; view collision] with (map view [pothole; collision]).
  apply (pages_partition ObjectId_hex regex_fragment db_two alice env0 one_a_page
           (fun _ => true) 1 2).
  - intros k. reflexivity.
  - intros k. reflexivity.
  - intros k. unfold one_a_page. cbn [query with_query].
    rewrite (query_int_decimal _ "page" 1 (S k)); [reflexivity|].
    apply lookup_insert_eq.
  - intros k. unfold one_a_page, query_int. cbn [query with_query].
    rewrite lookup_insert_ne by discriminate. rewrite lookup_insert_eq. reflexivity.
  - lia.
  - unfold max_safe. lia.
  - simpl. unfold max_safe. lia.
  - simpl. repeat constructor; simpl; intuition discriminate.
  - vm_compute. discriminate.
  - repeat constructor; unfold newer_first; simpl; lia.
  - simpl. apply perm_swap.
Defined.

Lemma dashboard_listing_witness :
  exists items,
    handler ObjectId_hex regex_fragment db_two (Some alice) env0 (dashboard_request 0) =
      (respond 200 (Listing items 2 1 1), db_two) /\
    (length items <= 10)%nat.
Proof.
  destruct (dashboard_listing ObjectId_hex regex_fragment db_two alice env0
              (dashboard_request 0) 0 (fun _ => true)) as (items & H & Hlen).
  - reflexivity.
  - apply lookup_insert_eq.
  - unfold dashboard_request. cbn [query with_query].
    rewrite lookup_insert_ne by discriminate. apply lookup_insert_eq.
  - reflexivity.
  - unfold max_safe. lia.
  - simpl. unfold max_safe. lia.
  - exists items. split; [exact H|exact Hlen].
Defined.

Lemma routes_list_alike_witness :
  payload (fst (handler ObjectId_hex regex_fragment db_two (Some alice) env0
                  (get_request []))) =
  Listing [view pothole; view collision] 2 1 1.
Proof.
  destruct (routes_list_alike ObjectId_hex regex_fragment db_two alice env0
              (get_request []) ltac:(reflexivity) ltac:(left; reflexivity)) as [_ H].
  apply (H [pothole; collision]). vm_compute. reflexivity.
Defined.
